(** * datalad-catalog: the [catalog] command (src/datalad_catalog/catalog.py)

    A shallow embedding of the command's actions: [__call__] (dispatch),
    [_add_to_catalog] (read, validate, translate, link orphans, flush),
    [_validate_metadata] and [_get_line_count].

    Python values are an inductive type, a node instance is its attribute
    dictionary ([vars(inst)], insertion ordered), [Node._instances] is the
    ordered list of its items, the node documents on disk are a finite map
    from path to text, and every action is a computation in a state and
    exception monad over that world.  What the file imports from elsewhere
    (the [json] and [jsonschema] libraries, [MetaItem], the methods of [Node]
    and [WebCatalog], the operating system) is gathered in one interface,
    [Externals], and every theorem holds for all its implementations. *)

From Stdlib Require Import Ascii.
From stdpp Require Import gmap strings list fin_maps pretty.

Set Warnings "-register-all".

Open Scope string_scope.
Open Scope list_scope.

(** ** Python values *)

(** [WebCatalog(catalog_dir, dataset_id, dataset_version, config_file)]:
    the object built by [__call__]; its class is outside this file, so the
    object is the record of its constructor arguments. *)
Record WebCatalog := mkWebCatalog {
  catalog_dir : string;
  main_id : option string;
  main_version : option string;
  config_file : option string
}.

(** The values the command handles: what [json.loads] returns (numbers with
    a fraction or an exponent are not represented), [pathlib] paths
    ([node_path]) and catalog objects ([parent_catalog]). *)
Inductive pyval : Type :=
| PNone
| PBool (b : bool)
| PInt (z : Z)
| PStr (s : string)
| PList (xs : list pyval)
| PDict (kvs : list (string * pyval))
| PPath (p : string)
| PCatalog (c : WebCatalog).

(** [isinstance(v, dict)] *)
Definition is_dict (v : pyval) : bool :=
  match v with PDict _ => true | _ => false end.

(** Truth value of [v] as [not v] tests it.  Instances of classes that
    define neither [__bool__] nor [__len__] are true. *)
Definition truthy (v : pyval) : bool :=
  match v with
  | PNone => false
  | PBool b => b
  | PInt z => negb (z =? 0)%Z
  | PStr s => negb (String.eqb s "")
  | PList xs => match xs with [] => false | _ => true end
  | PDict kvs => match kvs with [] => false | _ => true end
  | PPath _ => true
  | PCatalog _ => true
  end.

(** [v == s] for a string literal [s] *)
Definition eq_str (v : pyval) (s : string) : bool :=
  match v with PStr t => String.eqb t s | _ => false end.

(** ** Dictionaries with string keys, in insertion order *)

Module Dict.

Definition t := list (string * pyval).

(** [d.get(k)] *)
Fixpoint get (k : string) (d : t) : option pyval :=
  match d with
  | [] => None
  | (k', v) :: d' => if String.eqb k' k then Some v else get k d'
  end.

(** [k in d] *)
Definition has (k : string) (d : t) : bool :=
  match get k d with Some _ => true | None => false end.

(** [d[k] = v]: an existing key keeps its place, a new one goes last. *)
Fixpoint set (k : string) (v : pyval) (d : t) : t :=
  match d with
  | [] => [(k, v)]
  | (k', v') :: d' =>
      if String.eqb k' k then (k, v) :: d' else (k', v') :: set k v d'
  end.

(** [d.pop(k, None)], the returned value dropped *)
Fixpoint pop (k : string) (d : t) : t :=
  match d with
  | [] => []
  | (k', v) :: d' => if String.eqb k' k then pop k d' else (k', v) :: pop k d'
  end.

End Dict.

(** A node instance is its attribute dictionary: [hasattr(inst, a)] is
    [Dict.has a], [setattr(inst, a, v)] is [Dict.set a v], [vars(inst)] is
    the dictionary itself (so popping from [vars(inst)] removes the
    attribute from the instance). *)
Definition node := Dict.t.

(** ** Exceptions, results and the world *)

Inductive exn : Type :=
| InsufficientArgumentsError (msg : string)
| FileExistsError (msg : string)
| ValidationError (msg : string)
| JSONDecodeError
| AttributeError (attr : string)
| KeyError (key : pyval)
| TypeError
| OSError (path : string)
| UnboundLocalError (var : string)
| SystemExit (msg : string)
| OtherError (msg : string).

(** [get_status_dict(action=..., path=abspath(curdir), status=..., message=...)] *)
Record status := mkStatus {
  st_action : string;
  st_status : string;
  st_message : string
}.

Inductive log_event : Type :=
| Warning (msg : string)                  (* lgr.warning(msg) *)
| Progress (update total : nat).          (* log_progress(..., total, update) *)

Record world := mkWorld {
  (** [Node._instances]: the items of the class-level dictionary, in
      insertion order (identity hash, instance) *)
  instances : list (string * node);
  (** the text files under the catalog's metadata directory, by path *)
  files : gmap string string;
  (** the directories catalog actions look at: present when the directory
      exists, [true] when it holds a created catalog *)
  catalogs : gmap string bool;
  (** what was logged, oldest first *)
  log : list log_event;
  (** the result records yielded so far, oldest first *)
  yielded : list status
}.

Definition set_instances (r : list (string * node)) (w : world) : world :=
  mkWorld r (files w) (catalogs w) (log w) (yielded w).
Definition set_files (f : gmap string string) (w : world) : world :=
  mkWorld (instances w) f (catalogs w) (log w) (yielded w).
Definition set_catalogs (c : gmap string bool) (w : world) : world :=
  mkWorld (instances w) (files w) c (log w) (yielded w).
Definition add_log (e : log_event) (w : world) : world :=
  mkWorld (instances w) (files w) (catalogs w) (log w ++ [e]) (yielded w).
Definition add_yield (s : status) (w : world) : world :=
  mkWorld (instances w) (files w) (catalogs w) (log w) (yielded w ++ [s]).

(** A computation over a state [S] either returns or raises; the state it
    leaves is kept in both cases. *)
Definition M (S A : Type) : Type := S -> S * (exn + A).

Definition ret {S A} (a : A) : M S A := fun s => (s, inr a).
Definition raise {S A} (e : exn) : M S A := fun s => (s, inl e).
Definition bind {S A B} (m : M S A) (k : A -> M S B) : M S B :=
  fun s => match m s with
           | (s', inr a) => k a s'
           | (s', inl e) => (s', inl e)
           end.
Definition modify {S} (f : S -> S) : M S unit := fun s => (f s, inr tt).
Definition gets {S A} (f : S -> A) : M S A := fun s => (s, inr (f s)).

Declare Scope py_scope.
Delimit Scope py_scope with py.
Notation "'let*' x ':=' m 'in' k" := (bind m (fun x => k))
  (at level 10, x name, m at level 100, k at level 200) : py_scope.
Notation "m ;; k" := (bind m (fun _ => k))
  (at level 100, k at level 200, right associativity) : py_scope.
Open Scope py_scope.

(** [lgr.warning(msg)] and [yield get_status_dict(...)] *)
Definition lgr_warning (msg : string) : M world unit :=
  modify (add_log (Warning msg)).
Definition yield (s : status) : M world unit := modify (add_yield s).

(** [if c: body] *)
Definition when {S} (c : bool) (body : M S unit) : M S unit :=
  if c then body else ret tt.

(** ** Text *)

(** The newline character of the f-strings' [\n]. *)
Definition LF : string := String (Ascii.ascii_of_nat 10) "".

(** Characters [str.rstrip()] removes from ASCII text: tab, line feed,
    vertical tab, form feed, carriage return, the separators 28 to 31 and
    the space. *)
Definition is_space (c : Ascii.ascii) : bool :=
  let n := Ascii.nat_of_ascii c in
  (Nat.leb 9 n && Nat.leb n 13) || (Nat.leb 28 n && Nat.leb n 32).

(** [s.rstrip()] *)
Fixpoint rstrip (s : string) : string :=
  match s with
  | EmptyString => EmptyString
  | String c s' =>
      match rstrip s' with
      | EmptyString => if is_space c then EmptyString else String c EmptyString
      | r => String c r
      end
  end.

Fixpoint str_take (n : nat) (s : string) : string :=
  match n, s with
  | S n', String c s' => String c (str_take n' s')
  | _, _ => EmptyString
  end.

Fixpoint str_drop (n : nat) (s : string) : string :=
  match n, s with
  | S n', String _ s' => str_drop n' s'
  | _, _ => s
  end.

(** A file opened with ["r+"], after [f.seek(0)] and [f.write(data)]: the
    data replaces the start of the old content, what lies beyond it stays. *)
Definition write_at_start (data old : string) : string :=
  data +:+ str_drop (String.length data) old.

(** [f.truncate()] with the position at [pos] *)
Definition truncate (pos : nat) (content : string) : string :=
  str_take pos content.

(** ** What the command imports *)

(** What [json.dump(d, f)] writes to [f]: the whole text, or the chunks
    written before a value that cannot be serialised raised [TypeError]. *)
Inductive dump_result : Type :=
| Dumped (text : string)
| DumpFailed (partial : string).

(** [RefResolver.from_schema(schema, store=store)] *)
Record RefResolver := mkRefResolver {
  referrer : pyval;
  store : list (pyval * pyval)
}.

Class Externals := {
  (** [json.loads(s)]; [None] when it raises [JSONDecodeError] *)
  json_loads : string -> option pyval;
  (** [json.dump(d, f)] *)
  json_dump : Dict.t -> dump_result;
  (** [str(v)] *)
  py_str : pyval -> string;
  (** [v.name]; [None] when [v] has no such attribute *)
  attr_name : pyval -> option pyval;
  (** [open(path)] for reading: the lines that iterating the file yields;
      [None] when the file cannot be opened *)
  open_text : string -> option (list string);
  (** whether creating the parent directory of [path] and opening [path]
      for writing succeed; they raise [OSError] otherwise *)
  io_ok : string -> bool;
  (** [catalog.VALIDATOR.validate(v)]; [Some e] when it raises
      [ValidationError], [e] being the text of the error *)
  VALIDATOR : WebCatalog -> pyval -> option string;
  (** [MetaItem(catalog, meta_dict)] (meta_item.py is not part of the
      sources).  Modelled from the spec: the translator turns one record
      into nodes of the registry [Node._instances], which it reads and
      changes; it may look at the files but writes none, the nodes being
      written by the flush at the end of the run *)
  MetaItem : WebCatalog -> pyval -> list (string * node) ->
             gmap string string -> exn + list (string * node);
  (** [inst.get_location()] (webcatalog.py is not part of the sources): the
      path of the node's file, computed from the instance *)
  get_location : node -> string;
  (** [Path(__file__).resolve().parent / "templates"] *)
  templates_path : string;
  (** [read_json_file(path)] *)
  read_json_file : string -> exn + pyval;
  (** [Draft202012Validator(schema, resolver=r).validate(v)]; [Some e] when
      it raises [ValidationError] *)
  Draft202012Validator : pyval -> RefResolver -> pyval -> option string;
  (** [httpd.serve_forever()] inside the [TCPServer] block, until it ends *)
  serve_forever : WebCatalog -> exn + unit;
  (** [catalog.set_main_dataset()] *)
  set_main_dataset : WebCatalog -> gmap string string -> exn + gmap string string
}.

(** [from_sum r]: return or raise what an imported call returned or raised. *)
Definition from_sum {S A} (r : exn + A) : M S A :=
  match r with inl e => raise e | inr a => ret a end.

Definition from_option {S A} (e : exn) (o : option A) : M S A :=
  match o with None => raise e | Some a => ret a end.

(** ** The add action *)

Section Add.
Context `{!Externals}.

Definition no_metadata_add_msg : string :=
  "No metadata supplied: Datalad catalog has to be supplied with metadata in the form of a path to a file containing a JSON array, or JSON lines stream, using the argument: -m, --metadata.".

Definition not_dict_msg : string :=
  "Metadata item not of type dict: metadata items should be passed to datalad catalog as JSON objects adhering to the catalog schema.".

(** [f"Schema validation failed in LINE {i}: \n\n{e}"] *)
Definition add_validation_msg (i : nat) (e : string) : string :=
  "Schema validation failed in LINE " +:+ pretty i +:+ ": " +:+ LF +:+ LF +:+ e.

(** The body of the loop over the lines of the metadata file, [i] already
    incremented. *)
Definition add_line (catalog : WebCatalog) (i : nat) (line : string)
  : M world unit :=
  let* meta_dict := from_option JSONDecodeError (json_loads (rstrip line)) in
  when (negb (is_dict meta_dict)) (lgr_warning not_dict_msg) ;;
  match VALIDATOR catalog meta_dict with
  | Some e => raise (ValidationError (add_validation_msg i e))
  | None => ret tt
  end ;;
  let* reg := gets instances in
  let* fs := gets files in
  let* reg' := from_sum (MetaItem catalog meta_dict reg fs) in
  modify (set_instances reg').

(** [i = 0; for line in file: i += 1; ...], from the value of [i] on
    entry. *)
Fixpoint add_lines (catalog : WebCatalog) (i : nat) (file : list string)
  : M world unit :=
  match file with
  | [] => ret tt
  | line :: rest =>
      add_line catalog (S i) line ;; add_lines catalog (S i) rest
  end.

(** [not hasattr(inst, "parent_catalog") or not inst.parent_catalog] *)
Definition is_orphan (inst : node) : bool :=
  match Dict.get "parent_catalog" inst with
  | None => true
  | Some v => negb (truthy v)
  end.

(** The comprehension collects the instances that are orphans, the loop
    then sets [parent_catalog] on each of them: instance by instance, an
    orphan gets the attribute and any other instance is left as it is. *)
Definition link_orphans (catalog : WebCatalog) (reg : list (string * node))
  : list (string * node) :=
  map (fun '(blob, inst) =>
         (blob, if is_orphan inst
                then Dict.set "parent_catalog" (PCatalog catalog) inst
                else inst)) reg.

Definition keys_to_pop : list string :=
  ["node_path"; "long_name"; "md5_hash"; "file_name"; "parent_catalog"].

(** [for key in keys_to_pop: meta_dict.pop(key, None)] *)
Definition pop_keys (d : Dict.t) : Dict.t :=
  foldl (fun d key => Dict.pop key d) d keys_to_pop.

(** Modelled from the spec: [Node.is_created] (webcatalog.py is not part of
    the sources) is true when a file exists at the node's location. *)
Definition is_created (fs : gmap string string) (inst : node) : bool :=
  match fs !! get_location inst with Some _ => true | None => false end.

(** The state of one turn of the flush loop: the instance and the files. *)
Definition flush_state : Type := node * gmap string string.

Definition getattr (a : string) : M flush_state pyval :=
  let* inst := gets fst in
  from_option (AttributeError a) (Dict.get a inst).

Definition setattr (a : string) (v : pyval) : M flush_state unit :=
  modify (fun s : flush_state => (Dict.set a v s.1, s.2)).

(** [json.dump(d, f)] on the open file [fn], where writing [data] at the
    current position turns the content into [after data]; returns the
    position reached. *)
Definition dump_to (fn : string) (d : Dict.t) (after : string -> string)
  : M flush_state nat :=
  match json_dump d with
  | Dumped text =>
      modify (fun s : flush_state => (s.1, <[fn := after text]> s.2)) ;;
      ret (String.length text)
  | DumpFailed partial =>
      modify (fun s : flush_state => (s.1, <[fn := after partial]> s.2)) ;;
      raise TypeError
  end.

Definition hasattr (a : string) : M flush_state bool :=
  gets (fun s : flush_state => Dict.has a s.1).

(** The two conditional [setattr] of a turn of the flush loop. *)
Definition set_path_and_name : M flush_state unit :=
  let* has_path := hasattr "node_path" in
  when has_path
    (let* ty := getattr "type" in
     when (negb (eq_str ty "dataset"))
       (let* np := getattr "node_path" in
        setattr "path" (PStr (py_str np)))) ;;
  let* has_path := hasattr "node_path" in
  when has_path
    (let* ty := getattr "type" in
     when (eq_str ty "directory")
       (let* np := getattr "node_path" in
        let* name := from_option (AttributeError "name") (attr_name np) in
        setattr "name" name)).

(** [parent_path.mkdir(parents=True, exist_ok=True)], then
    [with open(fn, "w") as f: json.dump(vars(inst), f)]: opening creates
    the file or empties it. *)
Definition write_new (fn : string) (meta_dict : Dict.t) : M flush_state unit :=
  when (negb (io_ok fn)) (raise (OSError fn)) ;;
  modify (fun s : flush_state => (s.1, <[fn := ""]> s.2)) ;;
  dump_to fn meta_dict (fun data => data) ;;
  ret tt.

(** [with open(fn, "r+") as f: f.seek(0); json.dump(vars(inst), f);
    f.truncate()] *)
Definition rewrite_existing (fn : string) (meta_dict : Dict.t)
  : M flush_state unit :=
  when (negb (io_ok fn)) (raise (OSError fn)) ;;
  let* content := gets (fun s : flush_state => s.2 !! fn) in
  let* old := from_option (OSError fn) content in
  let* pos := dump_to fn meta_dict (fun data => write_at_start data old) in
  modify (fun s : flush_state => (s.1, alter (truncate pos) fn s.2)).

(** The body of the loop over [Node._instances], on one instance. *)
Definition flush_instance : M flush_state unit :=
  let* inst := gets fst in
  let fn := get_location inst in
  let* created := gets (fun s : flush_state => is_created s.2 s.1) in
  set_path_and_name ;;
  modify (fun s : flush_state => (pop_keys s.1, s.2)) ;;
  let* meta_dict := gets fst in
  if negb created then write_new fn meta_dict
  else rewrite_existing fn meta_dict.

(** [for blob in Node._instances: ...] over the items [todo], in order:
    the files are threaded through the turns, and each turn works on the
    instance the registry holds, so what it sets and pops stays there.
    Returns the items as the loop leaves them. *)
Fixpoint flush_items (todo : list (string * node)) (fs : gmap string string)
  : list (string * node) * gmap string string * (exn + unit) :=
  match todo with
  | [] => ([], fs, inr tt)
  | (blob, inst) :: rest =>
      let '((inst', fs'), r) := flush_instance (inst, fs) in
      match r with
      | inl e => ((blob, inst') :: rest, fs', inl e)
      | inr _ =>
          let '(rest', fs'', r') := flush_items rest fs' in
          ((blob, inst') :: rest', fs'', r')
      end
  end.

Definition flush_all : M world unit :=
  fun w =>
    let '(reg, fs, r) := flush_items (instances w) (files w) in
    (set_instances reg (set_files fs w), r).

Definition added_status : status :=
  mkStatus "catalog add" "ok" "Metadata items successfully added to catalog".

Definition _add_to_catalog (catalog : WebCatalog) (metadata : option string)
    (dataset_id dataset_version : option string) (force : bool)
    (config : option string) : M world unit :=
  match metadata with
  | None => raise (InsufficientArgumentsError no_metadata_add_msg)
  | Some path =>
      let* file := from_option (OSError path) (open_text path) in
      add_lines catalog 0 file ;;
      modify (fun w => set_instances (link_orphans catalog (instances w)) w) ;;
      flush_all ;;
      yield added_status
  end.
End Add.

(** ** The validate action *)

(** [schema_store]: a dictionary whose keys are the schemas' ["$id"] values.
    Lists and dictionaries cannot be keys; among the others [True] and [1],
    [False] and [0] are the same key. *)
Module Store.

Definition t := list (pyval * pyval).

Definition hashable (k : pyval) : bool :=
  match k with PList _ | PDict _ => false | _ => true end.

Definition catalog_eqb (c c' : WebCatalog) : bool :=
  String.eqb (catalog_dir c) (catalog_dir c')
  && bool_decide (main_id c = main_id c')
  && bool_decide (main_version c = main_version c')
  && bool_decide (config_file c = config_file c').

Definition key_eqb (a b : pyval) : bool :=
  match a, b with
  | PNone, PNone => true
  | PBool x, PBool y => Bool.eqb x y
  | PBool x, PInt z | PInt z, PBool x => (z =? (if x then 1 else 0))%Z
  | PInt x, PInt y => (x =? y)%Z
  | PStr x, PStr y => String.eqb x y
  | PPath x, PPath y => String.eqb x y
  | PCatalog x, PCatalog y => catalog_eqb x y
  | _, _ => false
  end.

Fixpoint get (k : pyval) (d : t) : option pyval :=
  match d with
  | [] => None
  | (k', v) :: d' => if key_eqb k' k then Some v else get k d'
  end.

(** [d[k] = v] on an existing key replaces the value, not the key. *)
Fixpoint set (k v : pyval) (d : t) : t :=
  match d with
  | [] => [(k, v)]
  | (k', v') :: d' =>
      if key_eqb k' k then (k', v) :: d' else (k', v') :: set k v d'
  end.

End Store.

Section Validate.
Context `{!Externals}.

Definition no_metadata_validate_msg : string :=
  "No metadata supplied: datalad catalog has to be supplied with metadata in the form of a path to a file containing a JSON array, or JSON lines stream, using the argument: -m, --metadata.".

Definition schemas : list string :=
  ["catalog"; "dataset"; "file"; "authors"; "extractors"].

Definition catalog_schema_id : string :=
  "https://datalad.org/catalog.schema.json".

(** [templates_path / str("jsonschema_" + s + ".json")] *)
Definition schema_path (s : string) : string :=
  templates_path +:+ "/" +:+ ("jsonschema_" +:+ s +:+ ".json").

(** [schema["$id"]] *)
Definition schema_id (schema : pyval) : exn + pyval :=
  match schema with
  | PDict kvs =>
      match Dict.get "$id" kvs with
      | Some v => inr v
      | None => inl (KeyError (PStr "$id"))
      end
  | _ => inl TypeError
  end.

(** [for s in schemas: ...], from the store built so far. *)
Fixpoint load_schemas (names : list string) (schema_store : Store.t)
  : M world Store.t :=
  match names with
  | [] => ret schema_store
  | s :: rest =>
      let* schema := from_sum (read_json_file (schema_path s)) in
      let* id := from_sum (schema_id schema) in
      when (negb (Store.hashable id)) (raise TypeError) ;;
      load_schemas rest (Store.set id schema schema_store)
  end.

(** [for i, _ in enumerate(f): pass]: the value of [i] after the loop,
    [None] while it is unbound. *)
Definition last_index (f : list string) : option nat :=
  foldl (fun _ '(i, _) => Some i) None (zip (seq 0 (length f)) f).

Definition _get_line_count (file : string) : M world nat :=
  let* f := from_option (OSError file) (open_text file) in
  match last_index f with
  | None => raise (UnboundLocalError "i")
  | Some i => ret (i + 1)
  end.

(** [f"Schema validation failed in LINE {i}/{num_lines}: \n\n{e}"] *)
Definition validation_msg (i num_lines : nat) (e : string) : string :=
  "Schema validation failed in LINE " +:+ pretty i +:+ "/" +:+ pretty num_lines
  +:+ ": " +:+ LF +:+ LF +:+ e.

Definition validate_line (catalog_schema : pyval) (RESOLVER : RefResolver)
    (num_lines i : nat) (line : string) : M world unit :=
  modify (add_log (Progress i num_lines)) ;;
  let* meta_dict := from_option JSONDecodeError (json_loads (rstrip line)) in
  when (negb (is_dict meta_dict)) (lgr_warning not_dict_msg) ;;
  match Draft202012Validator catalog_schema RESOLVER meta_dict with
  | Some e => raise (ValidationError (validation_msg i num_lines e))
  | None => ret tt
  end.

Fixpoint validate_lines (catalog_schema : pyval) (RESOLVER : RefResolver)
    (num_lines i : nat) (file : list string) : M world unit :=
  match file with
  | [] => ret tt
  | line :: rest =>
      validate_line catalog_schema RESOLVER num_lines (S i) line ;;
      validate_lines catalog_schema RESOLVER num_lines (S i) rest
  end.

Definition validated_status : status :=
  mkStatus "catalog validate" "ok" "Metadata successfully validated".

Definition _validate_metadata (catalog : option WebCatalog)
    (metadata : option string) (dataset_id dataset_version : option string)
    (force : option bool) (config : option string) : M world unit :=
  match metadata with
  | None => raise (InsufficientArgumentsError no_metadata_validate_msg)
  | Some path =>
      let* schema_store := load_schemas schemas [] in
      let* catalog_schema :=
        from_option (KeyError (PStr catalog_schema_id))
          (Store.get (PStr catalog_schema_id) schema_store) in
      let RESOLVER := mkRefResolver catalog_schema schema_store in
      let* num_lines := _get_line_count path in
      let* file := from_option (OSError path) (open_text path) in
      validate_lines catalog_schema RESOLVER num_lines 0 file ;;
      yield validated_status
  end.
End Validate.

(** ** The command: the other actions and the dispatch *)

(** The values [EnsureChoice] allows for [catalog_action]. *)
Inductive action : Type :=
| create | add | remove | serve | set_super | validate.

Definition action_name (a : action) : string :=
  match a with
  | create => "create" | add => "add" | remove => "remove"
  | serve => "serve" | set_super => "set-super" | validate => "validate"
  end.

(** [not s] for an argument that is [None] or a string *)
Definition missing (s : option string) : bool :=
  match s with None => true | Some t => String.eqb t "" end.

Section Command.
Context `{!Externals}.

(** Modelled from the spec: [WebCatalog.path_exists], [is_created] and
    [create] (webcatalog.py is not part of the sources) are the
    collaborator's [exists()], [is_initialized()] and the creation of the
    catalog at its directory. *)
Definition path_exists (ctlg : WebCatalog) (w : world) : bool :=
  match catalogs w !! catalog_dir ctlg with Some _ => true | None => false end.
Definition catalog_is_created (ctlg : WebCatalog) (w : world) : bool :=
  match catalogs w !! catalog_dir ctlg with Some b => b | None => false end.
Definition catalog_create (ctlg : WebCatalog) : M world unit :=
  modify (fun w => set_catalogs (<[catalog_dir ctlg := true]> (catalogs w)) w).

Definition _create_catalog (catalog : WebCatalog) (metadata : option string)
    (dataset_id dataset_version : option string) (force : bool)
    (config : option string) : M world unit :=
  let* created := gets (catalog_is_created catalog) in
  let* msg :=
    if negb created then
      catalog_create catalog ;;
      ret ("Catalog successfully created at: " +:+ catalog_dir catalog)
    else if force then
      catalog_create catalog ;;
      ret ("Catalog assets successfully overwritten at: " +:+ catalog_dir catalog)
    else ret "" in
  yield (mkStatus "catalog create" "ok" msg) ;;
  match metadata with
  | Some _ =>
      _add_to_catalog catalog metadata dataset_id dataset_version force config
  | None => ret tt
  end.

Definition remove_msg : string :=
  "Dataset ID and/or VERSION missing: datalad catalog remove requires both the ID (-i, --dataset_id) and VERSION (-v, --dataset_version) of the dataset to be removed from the catalog".

Definition _remove_from_catalog (catalog : WebCatalog)
    (metadata : option string) (dataset_id dataset_version : option string)
    (force : bool) (config : option string) : M world unit :=
  when (missing dataset_id || missing dataset_version)
    (yield (mkStatus "catalog remove" "error" remove_msg) ;;
     raise (SystemExit remove_msg)).

(** The change of working directory and what the server prints are left
    out; the server itself is [serve_forever]. *)
Definition _serve_catalog (catalog : WebCatalog) (metadata : option string)
    (dataset_id dataset_version : option string) (force : bool)
    (config : option string) : M world unit :=
  from_sum (serve_forever catalog) ;;
  yield (mkStatus "catalog serve" "ok" "Dataset served").

Definition set_super_msg : string :=
  "Dataset ID and/or VERSION missing: datalad catalog set-super requires both the ID (-i, --dataset_id) and VERSION (-v, --dataset_version) of the dataset that is to be used as the catalog's super dataset".

Definition _set_super_of_catalog (catalog : WebCatalog)
    (metadata : option string) (dataset_id dataset_version : option string)
    (force : bool) (config : option string) : M world unit :=
  when (missing dataset_id || missing dataset_version)
    (raise (InsufficientArgumentsError set_super_msg)) ;;
  let* fs := gets files in
  let* fs' := from_sum (set_main_dataset catalog fs) in
  modify (set_files fs') ;;
  yield (mkStatus "catalog set-super" "ok"
           "Superdataset successfully set for catalog").

Definition no_catalog_dir_msg : string :=
  "No catalog directory supplied: Datalad catalog can only operate on a path to a directory. Argument: -c, --catalog_dir.".

Definition not_a_catalog_msg (dir : string) : string :=
  "A non-catalog directory already exists at " +:+ dir
  +:+ ". Please supply a different path.".

Definition no_catalog_msg (a : action) : string :=
  "Catalog does not exist: datalad catalog " +:+ action_name a
  +:+ " can only operate on an existing catalog, please supply a path to an existing directory with the catalog argument: -c, --catalog_dir.".

Definition catalog_exists_msg : string :=
  "Catalog already exists: overwriting catalog assets (not catalog metadata) is only possible when using the force argument: -f, --force.".

(** [CALL_ACTION[catalog_action]]; the table has no entry for validate. *)
Definition CALL_ACTION (a : action)
  : option (WebCatalog -> option string -> option string -> option string ->
            bool -> option string -> M world unit) :=
  match a with
  | create => Some _create_catalog
  | serve => Some _serve_catalog
  | add => Some _add_to_catalog
  | remove => Some _remove_from_catalog
  | set_super => Some _set_super_of_catalog
  | validate => None
  end.

Definition is_create (a : action) : bool :=
  match a with create => true | _ => false end.

Definition __call__ (catalog_action : action) (catalog_dir : option string)
    (metadata dataset_id dataset_version : option string) (force : bool)
    (config : option string) : M world unit :=
  match catalog_action with
  | validate => _validate_metadata None metadata None None None None
  | _ =>
      match catalog_dir with
      | None => raise (InsufficientArgumentsError no_catalog_dir_msg)
      | Some dir =>
          let ctlg := mkWebCatalog dir dataset_id dataset_version config in
          let* there := gets (path_exists ctlg) in
          let* created := gets (catalog_is_created ctlg) in
          when (there && negb created)
            (raise (FileExistsError (not_a_catalog_msg dir))) ;;
          (if negb created then
             when (negb (is_create catalog_action))
               (raise (InsufficientArgumentsError
                         (no_catalog_msg catalog_action)))
           else
             when (is_create catalog_action && negb force)
               (raise (InsufficientArgumentsError catalog_exists_msg))) ;;
          let* run :=
            from_option (KeyError (PStr (action_name catalog_action)))
              (CALL_ACTION catalog_action) in
          run ctlg metadata dataset_id dataset_version force config
      end
  end.
End Command.

(** ** A small implementation of the interface, to run examples *)

(** The examples below run the command on text.  This module implements
    the imported operations for that purpose: a reader and a writer for the
    JSON used in the examples (objects, arrays, integers, literals, strings
    without control or non-ASCII characters), a schema check that asks for
    an object with string [type], [dataset_id] and [dataset_version], and a
    translator that keeps one node per (dataset, version, path). *)
Module Demo.

Definition dquote : Ascii.ascii := Ascii.ascii_of_nat 34.
Definition backslash : Ascii.ascii := Ascii.ascii_of_nat 92.

(** JSON text is written here with ['] where the text has a double
    quote. *)
Fixpoint js (s : string) : string :=
  match s with
  | EmptyString => EmptyString
  | String c s' => String (if Ascii.eqb c "'"%char then dquote else c) (js s')
  end.

(** *** Writing *)

Fixpoint escape (s : string) : string :=
  match s with
  | EmptyString => EmptyString
  | String c s' =>
      if Ascii.eqb c dquote || Ascii.eqb c backslash
      then String backslash (String c (escape s'))
      else String c (escape s')
  end.

Definition encode_str (s : string) : string :=
  String dquote (escape s) +:+ String dquote "".

(** The text [json.dump] writes for [v], and whether it got to the end:
    a path or a catalog object stops it. *)
Fixpoint encode (v : pyval) : string * bool :=
  match v with
  | PNone => ("null", true)
  | PBool b => (if b then "true" else "false", true)
  | PInt z => (pretty z, true)
  | PStr s => (encode_str s, true)
  | PList xs =>
      let fix items (first : bool) (xs : list pyval) : string * bool :=
        match xs with
        | [] => ("]", true)
        | x :: xs' =>
            let sep := if first then "" else ", " in
            let '(t, ok) := encode x in
            if ok then
              let '(t', ok') := items false xs' in (sep +:+ t +:+ t', ok')
            else (sep +:+ t, false)
        end in
      let '(t, ok) := items true xs in ("[" +:+ t, ok)
  | PDict kvs =>
      let fix members (first : bool) (kvs : list (string * pyval))
        : string * bool :=
        match kvs with
        | [] => ("}", true)
        | (k, x) :: kvs' =>
            let sep := if first then "" else ", " in
            let '(t, ok) := encode x in
            if ok then
              let '(t', ok') := members false kvs' in
              (sep +:+ encode_str k +:+ ": " +:+ t +:+ t', ok')
            else (sep +:+ encode_str k +:+ ": " +:+ t, false)
        end in
      let '(t, ok) := members true kvs in ("{" +:+ t, ok)
  | PPath _ | PCatalog _ => ("", false)
  end.

Definition dump (d : Dict.t) : dump_result :=
  let '(t, ok) := encode (PDict d) in
  if ok then Dumped t else DumpFailed t.

(** *** Reading *)

Definition is_ws (c : Ascii.ascii) : bool :=
  let n := Ascii.nat_of_ascii c in
  Nat.eqb n 32 || Nat.eqb n 9 || Nat.eqb n 10 || Nat.eqb n 13.

Fixpoint skip_ws (s : string) : string :=
  match s with
  | String c s' => if is_ws c then skip_ws s' else s
  | EmptyString => EmptyString
  end.

Fixpoint strip_prefix (p s : string) : option string :=
  match p, s with
  | EmptyString, _ => Some s
  | String a p', String b s' =>
      if Ascii.eqb a b then strip_prefix p' s' else None
  | _, _ => None
  end.

(** The characters up to the closing quote, and what follows it. *)
Fixpoint read_chars (s : string) : option (string * string) :=
  match s with
  | EmptyString => None
  | String c s' =>
      if Ascii.eqb c dquote then Some (EmptyString, s')
      else if Ascii.eqb c backslash then
        match s' with
        | String e s'' =>
            if Ascii.eqb e dquote || Ascii.eqb e backslash then
              match read_chars s'' with
              | Some (t, rest) => Some (String e t, rest)
              | None => None
              end
            else None
        | EmptyString => None
        end
      else if Nat.ltb (Ascii.nat_of_ascii c) 32 then None
      else
        match read_chars s' with
        | Some (t, rest) => Some (String c t, rest)
        | None => None
        end
  end.

Definition digit (c : Ascii.ascii) : option Z :=
  let n := Ascii.nat_of_ascii c in
  if Nat.leb 48 n && Nat.leb n 57 then Some (Z.of_nat (n - 48)) else None.

Fixpoint read_digits (acc : Z) (s : string) : Z * string :=
  match s with
  | String c s' =>
      match digit c with
      | Some d => read_digits (10 * acc + d) s'
      | None => (acc, s)
      end
  | EmptyString => (acc, s)
  end.

(** An integer: no leading zero, no fraction and no exponent. *)
Definition read_int (s : string) : option (Z * string) :=
  let '(neg, s1) :=
    match s with
    | String "-"%char s' => (true, s')
    | _ => (false, s)
    end in
  match s1 with
  | String c s2 =>
      match digit c with
      | Some d =>
          let '(n, rest) := read_digits 0 s1 in
          let leading_zero :=
            (d =? 0)%Z &&
            match s2 with
            | String c' _ => match digit c' with Some _ => true | None => false end
            | EmptyString => false
            end in
          let more :=
            match rest with
            | String "."%char _ | String "e"%char _ | String "E"%char _ => true
            | _ => false
            end in
          if leading_zero || more then None
          else Some (if neg then (- n)%Z else n, rest)
      | None => None
      end
  | EmptyString => None
  end.

Fixpoint read_value (fuel : nat) (s : string) : option (pyval * string) :=
  match fuel with
  | 0 => None
  | S fuel' =>
      match skip_ws s with
      | EmptyString => None
      | String c rest as s0 =>
          if Ascii.eqb c dquote then
            match read_chars rest with
            | Some (t, rest') => Some (PStr t, rest')
            | None => None
            end
          else if Ascii.eqb c "["%char then
            match skip_ws rest with
            | String "]"%char rest' => Some (PList [], rest')
            | _ => read_items fuel' [] rest
            end
          else if Ascii.eqb c "{"%char then
            match skip_ws rest with
            | String "}"%char rest' => Some (PDict [], rest')
            | _ => read_members fuel' [] rest
            end
          else
            match strip_prefix "null" s0, strip_prefix "true" s0,
                  strip_prefix "false" s0 with
            | Some r, _, _ => Some (PNone, r)
            | _, Some r, _ => Some (PBool true, r)
            | _, _, Some r => Some (PBool false, r)
            | _, _, _ =>
                match read_int s0 with
                | Some (z, r) => Some (PInt z, r)
                | None => None
                end
            end
      end
  end
with read_items (fuel : nat) (acc : list pyval) (s : string)
  : option (pyval * string) :=
  match fuel with
  | 0 => None
  | S fuel' =>
      match read_value fuel' s with
      | Some (v, rest) =>
          match skip_ws rest with
          | String ","%char rest' => read_items fuel' (acc ++ [v]) rest'
          | String "]"%char rest' => Some (PList (acc ++ [v]), rest')
          | _ => None
          end
      | None => None
      end
  end
with read_members (fuel : nat) (acc : Dict.t) (s : string)
  : option (pyval * string) :=
  match fuel with
  | 0 => None
  | S fuel' =>
      match skip_ws s with
      | String c rest =>
          if Ascii.eqb c dquote then
            match read_chars rest with
            | Some (k, rest1) =>
                match skip_ws rest1 with
                | String ":"%char rest2 =>
                    match read_value fuel' rest2 with
                    | Some (v, rest3) =>
                        match skip_ws rest3 with
                        | String ","%char rest4 =>
                            read_members fuel' (Dict.set k v acc) rest4
                        | String "}"%char rest4 =>
                            Some (PDict (Dict.set k v acc), rest4)
                        | _ => None
                        end
                    | None => None
                    end
                | _ => None
                end
            | None => None
            end
          else None
      | EmptyString => None
      end
  end.

Definition loads (s : string) : option pyval :=
  match read_value (2 * String.length s + 2) s with
  | Some (v, rest) =>
      match skip_ws rest with EmptyString => Some v | _ => None end
  | None => None
  end.

(** *** Schema check, translator, node locations *)

Definition str_field (k : string) (d : Dict.t) : option string :=
  match Dict.get k d with Some (PStr s) => Some s | _ => None end.

Definition check (v : pyval) : option string :=
  match v with
  | PDict d =>
      match str_field "type" d, str_field "dataset_id" d,
            str_field "dataset_version" d with
      | Some _, Some _, Some _ => None
      | _, _, _ => Some "a required property is missing"
      end
  | _ => Some "the value is not of type 'object'"
  end.

Fixpoint reg_get (k : string) (reg : list (string * node)) : option node :=
  match reg with
  | [] => None
  | (k', inst) :: reg' => if String.eqb k' k then Some inst else reg_get k reg'
  end.

Fixpoint reg_set (k : string) (inst : node) (reg : list (string * node))
  : list (string * node) :=
  match reg with
  | [] => [(k, inst)]
  | (k', inst') :: reg' =>
      if String.eqb k' k then (k, inst) :: reg'
      else (k', inst') :: reg_set k inst reg'
  end.

Definition identity_fields : list string :=
  ["type"; "dataset_id"; "dataset_version"; "path"].

(** One node per (dataset, version, path), named after them (the name
    stands for its hash); the record's other fields are set on it.  A
    node with a path is given the catalog as parent. *)
Definition translate (catalog : WebCatalog) (v : pyval)
    (reg : list (string * node)) : exn + list (string * node) :=
  match v with
  | PDict d =>
      match str_field "type" d, str_field "dataset_id" d,
            str_field "dataset_version" d with
      | Some ty, Some id, Some ver =>
          let path := str_field "path" d in
          let name :=
            id +:+ "-" +:+ ver
            +:+ match path with Some p => "-" +:+ p | None => "" end in
          let fresh : node :=
            ([("type", PStr ty); ("dataset_id", PStr id);
              ("dataset_version", PStr ver)]
             ++ match path with
                | Some p => [("node_path", PPath p);
                             ("parent_catalog", PCatalog catalog)]
                | None => []
                end
             ++ [("long_name", PStr name); ("md5_hash", PStr name);
                 ("children", PList [])]) in
          let inst := default fresh (reg_get name reg) in
          let fields :=
            filter (fun kv : string * pyval => kv.1 ∉ identity_fields) d in
          inr (reg_set name
                 (foldl (fun n '(k, x) => Dict.set k x n) inst fields) reg)
      | _, _, _ => inl (KeyError (PStr "type"))
      end
  | _ => inl TypeError
  end.

Definition location (inst : node) : string :=
  match Dict.get "parent_catalog" inst with
  | Some (PCatalog c) => catalog_dir c
  | _ => "."
  end +:+ "/metadata/" +:+ default "" (str_field "md5_hash" inst) +:+ ".json".

Fixpoint basename_from (acc s : string) : string :=
  match s with
  | EmptyString => acc
  | String c s' =>
      if Ascii.eqb c "/"%char then basename_from "" s'
      else basename_from (acc +:+ String c "") s'
  end.

Definition str (v : pyval) : string :=
  match v with
  | PPath p => p
  | PStr s => s
  | PNone => "None"
  | PBool b => if b then "True" else "False"
  | PInt z => pretty z
  | _ => "<object>"
  end.

Definition name_of (v : pyval) : option pyval :=
  match v with PPath p => Some (PStr (basename_from "" p)) | _ => None end.

Definition templates : string := "/pkg/datalad_catalog/templates".

Definition schema_doc (s : string) : pyval :=
  PDict [("$id", PStr ("https://datalad.org/" +:+ s +:+ ".schema.json"));
         ("type", PStr "object")].

Definition read_schema (path : string) : exn + pyval :=
  match
    find (fun s => String.eqb path (templates +:+ "/jsonschema_" +:+ s +:+ ".json"))
      ["catalog"; "dataset"; "file"; "authors"; "extractors"]
  with
  | Some s => inr (schema_doc s)
  | None => inl (OSError path)
  end.

Fixpoint lookup_file (path : string) (inputs : list (string * list string))
  : option (list string) :=
  match inputs with
  | [] => None
  | (p, f) :: rest => if String.eqb p path then Some f else lookup_file path rest
  end.

(** The implementation, for the metadata files [inputs] and the node
    files [locked] that cannot be written. *)
Definition env (inputs : list (string * list string)) (locked : list string)
  : Externals :=
  {| json_loads := loads;
     json_dump := dump;
     py_str := str;
     attr_name := name_of;
     open_text := fun path => lookup_file path inputs;
     io_ok := fun path => negb (existsb (String.eqb path) locked);
     VALIDATOR := fun _ => check;
     MetaItem := fun c v reg _ => translate c v reg;
     get_location := location;
     templates_path := templates;
     read_json_file := read_schema;
     Draft202012Validator := fun _ _ => check;
     serve_forever := fun _ => inl (OtherError "KeyboardInterrupt");
     set_main_dataset := fun _ fs => inr fs |}.

(** A line of a metadata file. *)
Definition line (s : string) : string := js s +:+ LF.

Definition dataset_line : string :=
  line "{'type': 'dataset', 'dataset_id': 'd1', 'dataset_version': 'v1', 'name': 'demo'}".
Definition file_line : string :=
  line "{'type': 'file', 'dataset_id': 'd1', 'dataset_version': 'v1', 'path': 'data/f.csv', 'size': 5}".
Definition dir_line : string :=
  line "{'type': 'directory', 'dataset_id': 'd1', 'dataset_version': 'v1', 'path': 'data'}".
Definition invalid_line : string :=
  line "{'type': 'file', 'dataset_version': 'v1', 'path': 'x'}".
Definition array_line : string := line "[1, 2]".
Definition records_as_array : string :=
  line "[{'type': 'dataset', 'dataset_id': 'd1', 'dataset_version': 'v1', 'name': 'demo'}, {'type': 'file', 'dataset_id': 'd1', 'dataset_version': 'v1', 'path': 'data/f.csv', 'size': 5}]".

Definition inputs : list (string * list string) :=
  [("two.jsonl", [dataset_line; file_line]);
   ("three.jsonl", [dataset_line; dir_line; file_line]);
   ("invalid3.jsonl", [dataset_line; file_line; invalid_line; dir_line]);
   ("nonobject2.jsonl", [dataset_line; array_line; file_line]);
   ("two.json", [records_as_array]);
   ("empty.jsonl", [])].

Definition catalog : WebCatalog := mkWebCatalog "/cat" None None None.

Definition empty_world : world := mkWorld [] ∅ ∅ [] [].

(** A world in which the catalog at [/cat] has been created. *)
Definition catalog_world : world :=
  mkWorld [] ∅ {["/cat" := true]} [] [].

(** A node that sets only [size], and files in which its document holds a
    description. *)
Definition sized_node : node := [("md5_hash", PStr "n1"); ("size", PInt 10)].

Definition described_files : gmap string string :=
  {[ "./metadata/n1.json" := js "{'description': 'x'}" ]}.

(** Two nodes, and the location of the first. *)
Definition two_nodes : list (string * node) :=
  [("a", [("md5_hash", PStr "a"); ("size", PInt 1)]);
   ("b", [("md5_hash", PStr "b"); ("size", PInt 2)])].

Definition first_location : string := "./metadata/a.json".

(** The implementation with every node file writable. *)
Definition E0 : Externals := env inputs [].
End Demo.

(** ** Auxiliary notions used in the statements *)

Section Notions.
Context `{!Externals}.

(** A computation of a turn that works on the instance alone: it leaves
    the files as they are, and what it does is the same on any files. *)
Definition inst_only {A} (m : M flush_state A) : Prop :=
  forall inst fs1 fs2,
    (m (inst, fs1)).1.2 = fs1
    /\ (m (inst, fs1)).1.1 = (m (inst, fs2)).1.1
    /\ (m (inst, fs1)).2 = (m (inst, fs2)).2.

(** A computation of a turn that leaves the attribute [key] of the
    instance as it is. *)
Definition keeps {A} (key : string) (m : M flush_state A) : Prop :=
  forall s s' r, m s = (s', r) -> Dict.get key s'.1 = Dict.get key s.1.

(** What the conditional [setattr] make of an instance, and whether they
    raised. *)
Definition prepare (inst : node) : node * (exn + unit) :=
  let '((inst', _), r) := set_path_and_name (inst, ∅) in (inst', r).

(** The dictionary a turn of the flush loop dumps for [inst], when it gets
    that far. *)
Definition document (inst : node) : Dict.t := pop_keys (prepare inst).1.

(** The write a turn of the flush loop makes for [inst] when nothing
    raises: the location and the text. *)
Definition write_of (inst : node) : option (string * string) :=
  match (prepare inst).2, io_ok (get_location inst), json_dump (document inst) with
  | inr _, true, Dumped text => Some (get_location inst, text)
  | _, _, _ => None
  end.

(** The writes of a whole flush loop in which nothing raises. *)
Fixpoint plan (todo : list (string * node)) : option (list (string * string)) :=
  match todo with
  | [] => Some []
  | (_, inst) :: rest =>
      match write_of inst, plan rest with
      | Some w, Some ws => Some (w :: ws)
      | _, _ => None
      end
  end.

(** The files after the writes [ws], made in order. *)
Definition apply_writes (ws : list (string * string)) (fs : gmap string string)
  : gmap string string :=
  foldl (fun f '(path, text) => <[path := text]> f) fs ws.

(** The text the last write to [path] in [ws] leaves there. *)
Fixpoint last_write (path : string) (ws : list (string * string)) : option string :=
  match ws with
  | [] => None
  | (p, text) :: rest =>
      match last_write path rest with
      | Some t => Some t
      | None => if String.eqb p path then Some text else None
      end
  end.

(** The registry as a flush loop in which nothing raises leaves it. *)
Definition flushed (todo : list (string * node)) : list (string * node) :=
  map (fun '(blob, inst) => (blob, document inst)) todo.

(** A computation that does not look at the state of the catalog
    directories and leaves it as it is. *)
Definition catalog_blind {A} (m : M world A) : Prop :=
  forall w c, m (set_catalogs c w) = let '(w', r) := m w in (set_catalogs c w', r).

(** [schema_store[id] = schema] for an entry [(id, schema)] *)
Definition store_add (st : Store.t) (entry : pyval * pyval) : Store.t :=
  Store.set entry.1 entry.2 st.


(** *** Three readings of the code that the code does not bear out *)

(** The reading of a line that is not an object as a line that is skipped:
    the warning is logged and nothing else happens. *)
Definition skips_non_object_line (catalog : WebCatalog) (i : nat)
    (line : string) (w : world) : Prop :=
  forall v, json_loads (rstrip line) = Some v -> is_dict v = false ->
    add_line catalog i line w = (add_log (Warning not_dict_msg) w, inr tt).

(** The flush of an existing file read as a merge with the document the
    file holds: the fields set on the incoming node win, and the fields
    that only the prior document has are retained. *)
Definition flush_merges_prior (inst : node) (fs : gmap string string) : Prop :=
  forall old prior,
    fs !! get_location inst = Some old ->
    json_loads old = Some (PDict prior) ->
    exists inst' fs' text doc,
      flush_instance (inst, fs) = ((inst', fs'), inr tt)
      /\ fs' !! get_location inst = Some text
      /\ json_loads text = Some (PDict doc)
      /\ (forall key v, Dict.get key inst = Some v -> key ∉ keys_to_pop ->
            Dict.get key doc = Some v)
      /\ (forall key v, Dict.get key prior = Some v -> Dict.get key inst = None ->
            Dict.get key doc = Some v).

(** The flush loop read as isolating failures: a node whose own turn can
    be taken (its location can be written, its dictionary can be dumped) has
    its file written, whatever happens to the other nodes. *)
Definition flush_isolates_failures (w : world) : Prop :=
  forall blob inst path text,
    (blob, inst) ∈ instances w ->
    write_of inst = Some (path, text) ->
    is_Some (files (flush_all w).1 !! path).
End Notions.

(** ** More inputs for the examples *)

Module DemoMore.

(** A line that is not JSON. *)
Definition broken_line : string := Demo.line "{'type': 'dataset', ".

Definition inputs : list (string * list string) :=
  [("broken2.jsonl", [Demo.dataset_line; broken_line; Demo.file_line]);
   ("two.jsonl", [Demo.dataset_line; Demo.file_line]);
   ("invalid3.jsonl",
    [Demo.dataset_line; Demo.file_line; Demo.invalid_line; Demo.dir_line]);
   ("empty.jsonl", [])].

Definition E1 : Externals := Demo.env inputs [].

(** A directory that exists and holds no catalog, beside the created
    catalog at [/cat]. *)
Definition mixed_world : world :=
  mkWorld [] ∅ {["/cat" := true; "/plain" := false]} [] [].

(** A directory node as the translator leaves it, and a dataset node. *)
Definition dir_node : node :=
  [("type", PStr "directory"); ("node_path", PPath "data/raw");
   ("parent_catalog", PCatalog Demo.catalog); ("md5_hash", PStr "h1");
   ("children", PList [])].

Definition dataset_node : node :=
  [("type", PStr "dataset"); ("node_path", PNone);
   ("parent_catalog", PCatalog Demo.catalog); ("md5_hash", PStr "h0")].

(** A node that holds a value [json.dump] cannot serialise. *)
Definition unserialisable_node : node :=
  [("md5_hash", PStr "h2"); ("size", PInt 1); ("where", PPath "x")].

(** The implementation in which the schema files carry other identifiers
    than the catalog schema's. *)
Definition E_no_catalog_schema : Externals :=
  {| json_loads := Demo.loads;
     json_dump := Demo.dump;
     py_str := Demo.str;
     attr_name := Demo.name_of;
     open_text := fun path => Demo.lookup_file path inputs;
     io_ok := fun _ => true;
     VALIDATOR := fun _ => Demo.check;
     MetaItem := fun c v reg _ => Demo.translate c v reg;
     get_location := Demo.location;
     templates_path := Demo.templates;
     read_json_file := fun path => inr (PDict [("$id", PStr path)]);
     Draft202012Validator := fun _ _ => Demo.check;
     serve_forever := fun _ => inl (OtherError "KeyboardInterrupt");
     set_main_dataset := fun _ fs => inr fs |}.
End DemoMore.

(** * Properties *)

(** ** Stepping through computations *)

Ltac unfold_monad :=
  unfold bind, ret, raise, modify, gets, when, from_option, from_sum,
    lgr_warning, yield in *.

Ltac run_monad :=
  cbv [bind ret raise modify gets when from_option from_sum lgr_warning yield]
    in *.

Ltac step_monad :=
  repeat (unfold_monad; simpl in *; try case_match; simplify_eq).

(** ** The definitions on small inputs *)

Example rstrip_line : rstrip ("{}  " +:+ LF) = "{}".
Proof. reflexivity. Qed.

Example rstrip_inner_space : rstrip "a b " = "a b".
Proof. reflexivity. Qed.

Example dict_set_keeps_place :
  Dict.set "a" (PInt 2) [("a", PInt 1); ("b", PNone)] = [("a", PInt 2); ("b", PNone)].
Proof. reflexivity. Qed.

Example dict_set_appends :
  Dict.set "c" (PInt 2) [("a", PInt 1); ("b", PNone)]
  = [("a", PInt 1); ("b", PNone); ("c", PInt 2)].
Proof. reflexivity. Qed.

Example pop_keys_example :
  pop_keys [("type", PStr "file"); ("node_path", PPath "a/b"); ("md5_hash", PStr "h");
            ("size", PInt 5); ("parent_catalog", PNone)]
  = [("type", PStr "file"); ("size", PInt 5)].
Proof. reflexivity. Qed.

Example write_over_longer_text :
  write_at_start "abc" "0123456" = "abc3456"
  /\ truncate 3 (write_at_start "abc" "0123456") = "abc".
Proof. by split. Qed.

Example orphan_without_attribute : is_orphan [("type", PStr "dataset")] = true.
Proof. reflexivity. Qed.

Example orphan_with_none :
  is_orphan [("type", PStr "dataset"); ("parent_catalog", PNone)] = true.
Proof. reflexivity. Qed.

Example not_orphan_with_catalog :
  is_orphan [("parent_catalog", PCatalog Demo.catalog)] = false.
Proof. reflexivity. Qed.

Example link_orphans_example :
  link_orphans Demo.catalog
    [("a", [("parent_catalog", PNone); ("size", PInt 1)]);
     ("b", [("parent_catalog", PCatalog (mkWebCatalog "/other" None None None))])]
  = [("a", [("parent_catalog", PCatalog Demo.catalog); ("size", PInt 1)]);
     ("b", [("parent_catalog", PCatalog (mkWebCatalog "/other" None None None))])].
Proof. reflexivity. Qed.

Example last_index_three : last_index ["a"; "b"; "c"] = Some 2.
Proof. reflexivity. Qed.

Example last_index_none : last_index [] = None.
Proof. reflexivity. Qed.

Example loads_record :
  Demo.loads (Demo.js "{'type': 'file', 'size': 5, 'tags': ['a', null, true]}")
  = Some (PDict [("type", PStr "file"); ("size", PInt 5);
                 ("tags", PList [PStr "a"; PNone; PBool true])]).
Proof. vm_compute. reflexivity. Qed.

Example dump_stops_at_a_path :
  Demo.dump [("size", PInt 5); ("node_path", PPath "a"); ("name", PStr "x")]
  = DumpFailed (Demo.js "{'size': 5, 'node_path': ").
Proof. vm_compute. reflexivity. Qed.

(** The run on two lines, a dataset and a file of it: two nodes, two
    documents, none of them with a bookkeeping key, and one result record. *)
Example add_two_lines :
  let r := @_add_to_catalog Demo.E0 Demo.catalog (Some "two.jsonl") None None
             false None Demo.catalog_world in
  r.2 = inr tt
  /\ map_to_list (files r.1)
     = [("/cat/metadata/d1-v1-data/f.csv.json",
         Demo.js "{'type': 'file', 'dataset_id': 'd1', 'dataset_version': 'v1', 'children': [], 'size': 5, 'path': 'data/f.csv'}");
        ("/cat/metadata/d1-v1.json",
         Demo.js "{'type': 'dataset', 'dataset_id': 'd1', 'dataset_version': 'v1', 'children': [], 'name': 'demo'}")]
  /\ yielded r.1 = [added_status].
Proof. vm_compute. by split_and!. Qed.

(** The dispatch asks for a created catalog before it adds, and for none
    before it validates. *)
Example add_needs_a_catalog :
  (@__call__ Demo.E0 add (Some "/cat") (Some "two.jsonl") None None false None
     Demo.empty_world).2
  = inl (InsufficientArgumentsError (no_catalog_msg add)).
Proof. vm_compute. reflexivity. Qed.

Example validate_without_catalog :
  (@__call__ Demo.E0 validate None (Some "two.jsonl") None None false None
     Demo.empty_world)
  = (mkWorld [] ∅ ∅ [Progress 1 2; Progress 2 2] [validated_status], inr tt).
Proof. vm_compute. reflexivity. Qed.

(** ** Reading, validating, translating *)

Section AddLines.
Context `{!Externals}.

(** A turn of the loop over the lines touches the registry and the log
    only. *)
Lemma add_line_frame catalog i line w w' r :
  add_line catalog i line w = (w', r) ->
  files w' = files w /\ yielded w' = yielded w /\ catalogs w' = catalogs w.
Proof. unfold add_line. intros Hrun. step_monad; auto. Qed.

Lemma add_lines_frame catalog file : forall i w w' r,
  add_lines catalog i file w = (w', r) ->
  files w' = files w /\ yielded w' = yielded w /\ catalogs w' = catalogs w.
Proof.
  induction file as [|line rest IH]; intros i w w' r Hrun; simpl in Hrun.
  - unfold ret in Hrun. simplify_eq. auto.
  - unfold bind in Hrun at 1.
    destruct (add_line catalog (S i) line w) as [w1 [e|[]]] eqn:Hline.
    + simplify_eq. eapply add_line_frame; eauto.
    + apply add_line_frame in Hline as (Hf & Hy & Hc).
      apply IH in Hrun as (Hf' & Hy' & Hc'). split_and!; congruence.
Qed.

(** The loop over [pre ++ post] is the loop over [pre], then, unless it
    raised, the loop over [post] with the counter where [pre] left it. *)
Lemma add_lines_app catalog pre post : forall i w,
  add_lines catalog i (pre ++ post) w =
  match add_lines catalog i pre w with
  | (w1, inr _) => add_lines catalog (i + length pre) post w1
  | (w1, inl e) => (w1, inl e)
  end.
Proof.
  induction pre as [|line rest IH]; intros i w; simpl.
  - by rewrite Nat.add_0_r.
  - unfold bind at 1 2.
    destruct (add_line catalog (S i) line w) as [w1 [e|[]]]; [done|].
    rewrite IH. by replace (S i + length rest) with (i + S (length rest)) by lia.
Qed.


End AddLines.

(** ** Text and dictionaries *)

Lemma str_take_app (a b : string) : str_take (String.length a) (a +:+ b) = a.
Proof. induction a as [|c a IH]; simpl; [by destruct b | by rewrite IH]. Qed.

(** Writing at the start and truncating at the position reached leaves the
    data written, whatever the file held. *)
Lemma truncate_write_at_start (data old : string) :
  truncate (String.length data) (write_at_start data old) = data.
Proof. apply str_take_app. Qed.

Lemma dict_get_pop_eq k d : Dict.get k (Dict.pop k d) = None.
Proof.
  induction d as [|[k' v] d IH]; simpl; [done|].
  destruct (String.eqb k' k) eqn:E; simpl; [done|]. by rewrite E.
Qed.

Lemma dict_get_pop_none k k' d :
  Dict.get k d = None -> Dict.get k (Dict.pop k' d) = None.
Proof.
  induction d as [|[k1 v] d IH]; simpl; [done|].
  destruct (String.eqb k1 k) eqn:E; [done|]. intros Hd.
  destruct (String.eqb k1 k'); simpl; [auto|]. rewrite E. auto.
Qed.

Lemma dict_get_pop_ne k k' d :
  k <> k' -> Dict.get k (Dict.pop k' d) = Dict.get k d.
Proof.
  intros Hne. induction d as [|[k1 v] d IH]; simpl; [done|].
  destruct (String.eqb k1 k') eqn:E'; simpl.
  - apply String.eqb_eq in E'. subst k1.
    destruct (String.eqb k' k) eqn:E; [|done].
    apply String.eqb_eq in E. congruence.
  - by rewrite IH.
Qed.

Lemma dict_get_set_eq k v d : Dict.get k (Dict.set k v d) = Some v.
Proof.
  induction d as [|[k' v'] d IH]; simpl.
  - by rewrite String.eqb_refl.
  - destruct (String.eqb k' k) eqn:E; simpl.
    + by rewrite String.eqb_refl.
    + by rewrite E.
Qed.

Lemma dict_get_set_ne k k' v d :
  k <> k' -> Dict.get k (Dict.set k' v d) = Dict.get k d.
Proof.
  intros Hne. induction d as [|[k1 v1] d IH]; simpl.
  - destruct (String.eqb k' k) eqn:E; [|done].
    apply String.eqb_eq in E. congruence.
  - destruct (String.eqb k1 k') eqn:E'; simpl; [|by rewrite IH].
    apply String.eqb_eq in E'. subst k1.
    destruct (String.eqb k' k) eqn:E; [|done].
    apply String.eqb_eq in E. congruence.
Qed.

(** ** Flushing one instance *)

Create HintDb inst_only.

Section Flush.
Context `{!Externals}.

(** After the pops the dictionary has none of the five keys. *)
Lemma pop_keys_removes d key :
  key ∈ keys_to_pop -> Dict.get key (pop_keys d) = None.
Proof.
  unfold pop_keys, keys_to_pop. simpl. intros Hin.
  repeat (apply elem_of_cons in Hin as [->|Hin];
          [repeat (first [apply dict_get_pop_eq | apply dict_get_pop_none])|]).
  by apply elem_of_nil in Hin.
Qed.

(** Any other key keeps its value. *)
Lemma pop_keys_keeps d key :
  key ∉ keys_to_pop -> Dict.get key (pop_keys d) = Dict.get key d.
Proof.
  unfold pop_keys, keys_to_pop. simpl. intros Hnot.
  repeat (rewrite dict_get_pop_ne;
          [|intros Heq; apply Hnot; rewrite Heq; set_solver]).
  done.
Qed.

Lemma inst_only_ret {A} (a : A) : inst_only (ret a).
Proof. by intros inst fs1 fs2. Qed.

Lemma inst_only_raise {A} e : inst_only (@raise flush_state A e).
Proof. by intros inst fs1 fs2. Qed.

Lemma inst_only_bind {A B} (m : M flush_state A) (k : A -> M flush_state B) :
  inst_only m -> (forall a, inst_only (k a)) -> inst_only (bind m k).
Proof.
  intros Hm Hk inst fs1 fs2. unfold bind.
  destruct (Hm inst fs1 fs2) as (Hf & Hi & Hr).
  destruct (Hm inst fs2 fs1) as (Hf2 & _ & _).
  destruct (m (inst, fs1)) as [[i1 g1] r1], (m (inst, fs2)) as [[i2 g2] r2].
  simpl in *. subst. destruct r2 as [e|a]; [done|]. apply Hk.
Qed.

Lemma inst_only_when c (m : M flush_state unit) :
  inst_only m -> inst_only (when c m).
Proof. destruct c; [done|]. intros _. apply inst_only_ret. Qed.

Lemma inst_only_from_option {A} e (o : option A) :
  inst_only (@from_option flush_state A e o).
Proof. destruct o; [apply inst_only_ret | apply inst_only_raise]. Qed.

Lemma inst_only_hasattr a : inst_only (hasattr a).
Proof. by intros inst fs1 fs2. Qed.

Lemma inst_only_getattr a : inst_only (getattr a).
Proof.
  apply inst_only_bind; [by intros inst fs1 fs2|].
  intros d. apply inst_only_from_option.
Qed.

Lemma inst_only_setattr a v : inst_only (setattr a v).
Proof. by intros inst fs1 fs2. Qed.

#[local] Hint Resolve inst_only_ret inst_only_raise inst_only_when
  inst_only_from_option inst_only_hasattr inst_only_getattr
  inst_only_setattr : inst_only.

(** The conditional [setattr] work on the instance alone. *)
Lemma inst_only_set_path_and_name : inst_only set_path_and_name.
Proof.
  unfold set_path_and_name.
  repeat first [ solve [auto with inst_only]
               | apply inst_only_when
               | apply inst_only_bind; [|intros ?] ].
Qed.

Lemma inst_only_run {A} (m : M flush_state A) inst fs inst' fs' r :
  inst_only m -> m (inst, fs) = ((inst', fs'), r) ->
  fs' = fs /\ forall fs2, m (inst, fs2) = ((inst', fs2), r).
Proof.
  intros Hm Hrun. destruct (Hm inst fs fs) as (Hf & _ & _).
  rewrite Hrun in Hf. simpl in Hf. split; [done|]. intros fs2.
  destruct (Hm inst fs2 fs) as (Hf2 & Hi & Hr). rewrite Hrun in Hi, Hr.
  destruct (m (inst, fs2)) as [[i2 g2] r2]. simpl in *. by subst.
Qed.

Lemma set_path_and_name_prepare inst fs :
  set_path_and_name (inst, fs) = (((prepare inst).1, fs), (prepare inst).2).
Proof.
  unfold prepare.
  destruct (set_path_and_name (inst, ∅)) as [[i0 g0] r0] eqn:Hrun.
  apply (inst_only_run _ _ _ _ _ _ inst_only_set_path_and_name) in Hrun
    as [_ Hrun].
  by rewrite Hrun.
Qed.

Lemma write_new_eq fn d inst fs :
  write_new fn d (inst, fs) =
  if io_ok fn then
    match json_dump d with
    | Dumped text => ((inst, <[fn := text]> fs), inr tt)
    | DumpFailed partial => ((inst, <[fn := partial]> fs), inl TypeError)
    end
  else ((inst, fs), inl (OSError fn)).
Proof.
  unfold write_new, dump_to. unfold_monad. simpl.
  destruct (io_ok fn); simpl; [|done].
  destruct (json_dump d); simpl; by rewrite insert_insert_eq.
Qed.

(** Rewriting an existing file leaves exactly the text dumped: the write
    at the start followed by the truncation drops what the file held. *)
Lemma rewrite_existing_eq fn d inst fs old :
  fs !! fn = Some old ->
  rewrite_existing fn d (inst, fs) =
  if io_ok fn then
    match json_dump d with
    | Dumped text => ((inst, <[fn := text]> fs), inr tt)
    | DumpFailed partial =>
        ((inst, <[fn := write_at_start partial old]> fs), inl TypeError)
    end
  else ((inst, fs), inl (OSError fn)).
Proof.
  intros Hold. unfold rewrite_existing, dump_to. unfold_monad. simpl.
  destruct (io_ok fn); simpl; [|done]. rewrite Hold. simpl.
  destruct (json_dump d); simpl; [|done].
  by rewrite alter_insert_eq, truncate_write_at_start.
Qed.

(** A turn of the flush loop, in closed form. *)
Lemma flush_instance_eq inst fs :
  flush_instance (inst, fs) =
  match (prepare inst).2 with
  | inl e => (((prepare inst).1, fs), inl e)
  | inr _ =>
      let fn := get_location inst in
      if io_ok fn then
        match json_dump (document inst) with
        | Dumped text => ((document inst, <[fn := text]> fs), inr tt)
        | DumpFailed partial =>
            ((document inst,
              <[fn := match fs !! fn with
                      | Some old => write_at_start partial old
                      | None => partial
                      end]> fs), inl TypeError)
        end
      else ((document inst, fs), inl (OSError fn))
  end.
Proof.
  unfold flush_instance, document. unfold bind at 1 2 3. unfold gets at 1 2.
  simpl. rewrite set_path_and_name_prepare.
  destruct (prepare inst) as [i1 [e|[]]]; simpl; [done|].
  unfold is_created. destruct (fs !! get_location inst) as [old|] eqn:Hold; simpl.
  - unfold bind, modify, gets. simpl.
    rewrite (rewrite_existing_eq _ _ _ _ old Hold).
    by destruct (io_ok (get_location inst)), (json_dump (pop_keys i1)).
  - unfold bind, modify, gets. simpl. rewrite write_new_eq.
    by destruct (io_ok (get_location inst)), (json_dump (pop_keys i1)).
Qed.

Lemma flush_instance_write inst fs w :
  write_of inst = Some w ->
  flush_instance (inst, fs) = ((document inst, <[w.1 := w.2]> fs), inr tt)
  /\ w.1 = get_location inst /\ json_dump (document inst) = Dumped w.2.
Proof.
  unfold write_of. rewrite flush_instance_eq. simpl.
  destruct (prepare inst).2 as [e|[]]; [done|].
  destruct (io_ok (get_location inst)); [|done].
  destruct (json_dump (document inst)); [|done].
  intros [= <-]. done.
Qed.

Lemma flush_instance_returns inst fs s :
  flush_instance (inst, fs) = (s, inr tt) -> is_Some (write_of inst).
Proof.
  unfold write_of. rewrite flush_instance_eq. simpl.
  destruct (prepare inst).2 as [e|[]]; [done|].
  destruct (io_ok (get_location inst)); [|done].
  destruct (json_dump (document inst)); [|done]. eauto.
Qed.

(** An [OSError] leaves the files as the turn found them. *)
Lemma flush_instance_oserror inst fs inst' fs' path :
  flush_instance (inst, fs) = ((inst', fs'), inl (OSError path)) -> fs' = fs.
Proof.
  rewrite flush_instance_eq. simpl.
  destruct (prepare inst).2 as [e|[]]; [congruence|].
  destruct (io_ok (get_location inst)); [|congruence].
  destruct (json_dump (document inst)); [done|]. intros [= _ _ ?].
Qed.

(** ** The flush loop *)

Lemma flush_items_app pre post : forall fs,
  flush_items (pre ++ post) fs =
  match flush_items pre fs with
  | (pre', fs1, inr _) =>
      let '(post', fs2, r) := flush_items post fs1 in
      (pre' ++ post', fs2, r)
  | (pre', fs1, inl e) => (pre' ++ post, fs1, inl e)
  end.
Proof.
  induction pre as [|[blob inst] rest IH]; intros fs; simpl.
  - by destruct (flush_items post fs) as [[? ?] ?].
  - destruct (flush_instance (inst, fs)) as [[inst' fs'] [e|[]]]; [done|].
    rewrite IH.
    destruct (flush_items rest fs') as [[rest' fs1] [e|[]]]; [done|].
    by destruct (flush_items post fs1) as [[? ?] ?].
Qed.

(** A loop in which nothing raises makes the writes of its plan, on any
    files. *)
Lemma flush_items_plan todo : forall fs todo' fs',
  flush_items todo fs = (todo', fs', inr tt) ->
  exists ws, plan todo = Some ws
    /\ todo' = flushed todo /\ fs' = apply_writes ws fs.
Proof.
  induction todo as [|[blob inst] rest IH]; intros fs todo' fs' Hrun; simpl in *.
  - simplify_eq. by exists [].
  - destruct (flush_instance (inst, fs)) as [[inst' fs1] [e|[]]] eqn:Hturn;
      [done|].
    destruct (flush_instance_returns _ _ _ Hturn) as [w Hw].
    destruct (flush_instance_write inst fs w Hw) as (Hturn' & _ & _).
    rewrite Hturn in Hturn'. simplify_eq.
    destruct (flush_items rest _) as [[rest' fs2] r] eqn:Hrest. simplify_eq.
    destruct (IH _ _ _ Hrest) as (ws & Hplan & -> & ->).
    exists (w :: ws). rewrite Hw, Hplan. by destruct w.
Qed.


Lemma apply_writes_lookup ws : forall fs path,
  apply_writes ws fs !! path =
  match last_write path ws with Some t => Some t | None => fs !! path end.
Proof.
  induction ws as [|[p text] rest IH]; intros fs path; simpl; [done|].
  unfold apply_writes in *. simpl. rewrite IH.
  destruct (last_write path rest); [done|].
  destruct (String.eqb p path) eqn:E.
  - apply String.eqb_eq in E. subst. by rewrite lookup_insert_eq.
  - apply String.eqb_neq in E. by rewrite lookup_insert_ne.
Qed.

End Flush.

(** ** The add action: validation failures *)

(** C2: when line [i] of the metadata input (the lines before it having
    been read, validated and translated) fails schema validation, the add
    action raises at once a validation error whose message carries the
    1-based number [i] and the text of the violation, and the files are those
    the run started with: no node of the run has been written, and nothing
    has been yielded. *)
Theorem add_aborts_at_invalid_line `{!Externals} catalog path dataset_id
    dataset_version force config pre line post v e w w1 :
  open_text path = Some (pre ++ line :: post) ->
  add_lines catalog 0 pre w = (w1, inr tt) ->
  json_loads (rstrip line) = Some v ->
  VALIDATOR catalog v = Some e ->
  exists w',
    _add_to_catalog catalog (Some path) dataset_id dataset_version force config w
    = (w', inl (ValidationError
                  ("Schema validation failed in LINE " +:+ pretty (S (length pre))
                   +:+ ": " +:+ LF +:+ LF +:+ e)))
    /\ files w' = files w /\ yielded w' = yielded w.
Proof.
  intros Hopen Hpre Hv He. unfold _add_to_catalog.
  unfold bind at 1. unfold from_option. rewrite Hopen. unfold ret at 1.
  unfold bind at 1. rewrite add_lines_app, Hpre. simpl.
  unfold bind at 1. unfold add_line. unfold bind at 1.
  unfold from_option. rewrite Hv. unfold ret at 1.
  unfold bind at 1.
  destruct (when (negb (is_dict v)) (lgr_warning not_dict_msg) w1)
    as [w2 r2] eqn:Hwarn.
  assert (r2 = inr tt /\ files w2 = files w1 /\ yielded w2 = yielded w1)
    as (-> & Hf & Hy).
  { destruct (is_dict v); cbv [when negb lgr_warning modify ret] in Hwarn;
      by simplify_eq. }
  unfold bind at 1. rewrite He. unfold raise.
  apply add_lines_frame in Hpre as (Hf1 & Hy1 & _).
  eexists. split; [reflexivity|]. split; congruence.
Qed.

Lemma add_aborts_at_invalid_line_witness :
  exists w',
    @_add_to_catalog Demo.E0 Demo.catalog (Some "invalid3.jsonl") None None
      false None Demo.catalog_world
    = (w', inl (ValidationError
                  ("Schema validation failed in LINE " +:+ pretty 3
                   +:+ ": " +:+ LF +:+ LF +:+ "a required property is missing")))
    /\ files w' = files Demo.catalog_world
    /\ yielded w' = yielded Demo.catalog_world.
Proof.
  apply (@add_aborts_at_invalid_line Demo.E0 Demo.catalog "invalid3.jsonl"
           None None false None [Demo.dataset_line; Demo.file_line]
           Demo.invalid_line [Demo.dir_line]
           (PDict [("type", PStr "file"); ("dataset_version", PStr "v1");
                   ("path", PStr "x")])
           "a required property is missing" Demo.catalog_world
           (@add_lines Demo.E0 Demo.catalog 0
              [Demo.dataset_line; Demo.file_line] Demo.catalog_world).1);
    vm_compute; reflexivity.
Defined.

(** C3 (as amended): a line whose JSON value is not an object is not
    skipped.  The warning is logged, and the value is then validated like
    any other: when the validator rejects it the add action raises the
    validation error with the line's number, and when the validator accepts
    it the value is handed to the translator and the loop goes on with what
    the translator returns. *)
Theorem non_object_line_is_validated `{!Externals} catalog i line v w :
  json_loads (rstrip line) = Some v ->
  is_dict v = false ->
  add_line catalog i line w =
  let w1 := add_log (Warning not_dict_msg) w in
  match VALIDATOR catalog v with
  | Some e => (w1, inl (ValidationError (add_validation_msg i e)))
  | None =>
      match MetaItem catalog v (instances w) (files w) with
      | inl e => (w1, inl e)
      | inr reg => (set_instances reg w1, inr tt)
      end
  end.
Proof.
  intros Hv Hdict. unfold add_line. unfold_monad.
  rewrite Hv. unfold ret at 1. cbv beta iota. rewrite Hdict. simpl.
  destruct (VALIDATOR catalog v); [done|]. unfold_monad. simpl.
  by destruct (MetaItem catalog v (instances w) (files w)).
Qed.

Lemma non_object_line_is_validated_witness :
  @add_line Demo.E0 Demo.catalog 2 Demo.array_line Demo.catalog_world
  = (add_log (Warning not_dict_msg) Demo.catalog_world,
     inl (ValidationError
            (add_validation_msg 2 "the value is not of type 'object'"))).
Proof.
  apply (@non_object_line_is_validated Demo.E0 Demo.catalog 2 Demo.array_line
           (PList [PInt 1; PInt 2]) Demo.catalog_world);
    vm_compute; reflexivity.
Defined.

(** C3, the claim as stated, fails: on the line [[1, 2]] the add action
    does not go on to the next line, it raises. *)
Lemma non_object_line_not_skipped :
  ~ @skips_non_object_line Demo.E0 Demo.catalog 2 Demo.array_line
      Demo.catalog_world.
Proof.
  intros Hskip.
  specialize (Hskip (PList [PInt 1; PInt 2]) eq_refl eq_refl).
  vm_compute in Hskip. discriminate Hskip.
Qed.

(** ** The add action: orphans *)

Lemma link_orphans_lookup `{!Externals} catalog reg (j : nat) :
  link_orphans catalog reg !! j =
  (fun '(blob, inst) =>
     (blob, if is_orphan inst
            then Dict.set "parent_catalog" (PCatalog catalog) inst
            else inst)) <$> (reg !! j).
Proof.
  unfold link_orphans. revert j.
  induction reg as [|[blob inst] rest IH]; intros [|j]; simpl; auto.
Qed.

(** C4: once the lines of the input are consumed, the registry the flush
    works on is the registry the lines left, node for node, in which every
    node without a parent catalog (the attribute missing, or false) has the
    active catalog as its parent catalog and is otherwise as it was, and
    every node with a parent catalog is as it was. *)
Theorem orphans_linked_to_catalog `{!Externals} catalog path dataset_id
    dataset_version force config file w w1 :
  open_text path = Some file ->
  add_lines catalog 0 file w = (w1, inr tt) ->
  let reg := link_orphans catalog (instances w1) in
  _add_to_catalog catalog (Some path) dataset_id dataset_version force config w
  = (flush_all ;; yield added_status) (set_instances reg w1)
  /\ length reg = length (instances w1)
  /\ forall (j : nat) blob inst,
       instances w1 !! j = Some (blob, inst) ->
       exists inst',
         reg !! j = Some (blob, inst')
         /\ (is_orphan inst = true ->
             Dict.get "parent_catalog" inst' = Some (PCatalog catalog)
             /\ is_orphan inst' = false
             /\ forall a, a <> "parent_catalog" ->
                  Dict.get a inst' = Dict.get a inst)
         /\ (is_orphan inst = false -> inst' = inst).
Proof.
  intros Hopen Hlines reg. split_and!.
  - unfold _add_to_catalog. unfold bind at 1. unfold from_option.
    rewrite Hopen. unfold ret at 1. unfold bind at 1. rewrite Hlines.
    reflexivity.
  - unfold reg, link_orphans. apply length_map.
  - intros j blob inst Hj. unfold reg. rewrite link_orphans_lookup, Hj. simpl.
    eexists. split; [reflexivity|]. split.
    + intros ->. split_and!.
      * apply dict_get_set_eq.
      * unfold is_orphan. by rewrite dict_get_set_eq.
      * intros a Ha. by apply dict_get_set_ne.
    + by intros ->.
Qed.

Lemma orphans_linked_to_catalog_witness :
  let w1 := (@add_lines Demo.E0 Demo.catalog 0
               [Demo.dataset_line; Demo.file_line] Demo.catalog_world).1 in
  let reg := @link_orphans Demo.catalog (instances w1) in
  @_add_to_catalog Demo.E0 Demo.catalog (Some "two.jsonl") None None false None
    Demo.catalog_world
  = (@flush_all Demo.E0 ;; yield added_status) (set_instances reg w1)
  /\ length reg = length (instances w1)
  /\ forall (j : nat) blob inst,
       instances w1 !! j = Some (blob, inst) ->
       exists inst',
         reg !! j = Some (blob, inst')
         /\ (is_orphan inst = true ->
             Dict.get "parent_catalog" inst' = Some (PCatalog Demo.catalog)
             /\ is_orphan inst' = false
             /\ forall a, a <> "parent_catalog" ->
                  Dict.get a inst' = Dict.get a inst)
         /\ (is_orphan inst = false -> inst' = inst).
Proof.
  apply (@orphans_linked_to_catalog Demo.E0 Demo.catalog "two.jsonl" None None
           false None [Demo.dataset_line; Demo.file_line] Demo.catalog_world);
    vm_compute; reflexivity.
Defined.

(** ** The add action: what the flush writes *)

Section FlushAll.
Context `{!Externals}.

(** Every write of a plan is the dump of the document of a node of the
    loop, at that node's location. *)
Lemma plan_last_write todo : forall ws path text,
  plan todo = Some ws ->
  last_write path ws = Some text ->
  exists blob inst,
    (blob, inst) ∈ todo /\ get_location inst = path
    /\ json_dump (document inst) = Dumped text.
Proof.
  induction todo as [|[blob inst] rest IH]; intros ws path text Hplan Hlast;
    simpl in Hplan.
  - by simplify_eq.
  - destruct (write_of inst) as [[p t]|] eqn:Hw; [|done].
    destruct (plan rest) as [ws'|] eqn:Hrest; [|done]. simplify_eq.
    simpl in Hlast.
    destruct (last_write path ws') as [t'|] eqn:Hl'.
    + simplify_eq. destruct (IH _ _ _ eq_refl Hl') as (b & i & Hin & Hloc & Hd).
      exists b, i. split_and!; [by apply list_elem_of_further|done..].
    + destruct (String.eqb p path) eqn:E; [|done]. simplify_eq.
      apply String.eqb_eq in E. subst p.
      destruct (flush_instance_write inst ∅ _ Hw) as (_ & Hloc & Hd).
      exists blob, inst. split_and!; [apply list_elem_of_here|done..].
Qed.


Lemma document_lacks_keys inst key :
  key ∈ keys_to_pop -> Dict.has key (document inst) = false.
Proof.
  intros Hin. unfold Dict.has, document. by rewrite pop_keys_removes.
Qed.

Lemma flush_all_plan w w' :
  flush_all w = (w', inr tt) ->
  exists ws, plan (instances w) = Some ws
    /\ files w' = apply_writes ws (files w)
    /\ instances w' = flushed (instances w)
    /\ log w' = log w /\ yielded w' = yielded w /\ catalogs w' = catalogs w.
Proof.
  unfold flush_all. intros Hrun.
  destruct (flush_items (instances w) (files w)) as [[reg fs] r] eqn:Hitems.
  simplify_eq. destruct (flush_items_plan _ _ _ _ Hitems) as (ws & Hp & -> & ->).
  exists ws. by split_and!.
Qed.
End FlushAll.



(** ** The add action: flushing over an existing file *)

Section Keeps.
Context `{!Externals}.

Lemma keeps_ret {A} key (a : A) : keeps key (ret a).
Proof. intros s s' r Hrun. unfold ret in Hrun. by simplify_eq. Qed.

Lemma keeps_raise {A} key e : keeps key (@raise flush_state A e).
Proof. intros s s' r Hrun. unfold raise in Hrun. by simplify_eq. Qed.

Lemma keeps_bind {A B} key (m : M flush_state A) (k : A -> M flush_state B) :
  keeps key m -> (forall a, keeps key (k a)) -> keeps key (bind m k).
Proof.
  intros Hm Hk s s' r Hrun. unfold bind in Hrun.
  destruct (m s) as [s1 [e|a]] eqn:Hms.
  - simplify_eq. by eapply Hm.
  - rewrite (Hk a _ _ _ Hrun). by eapply Hm.
Qed.

Lemma keeps_when key c (m : M flush_state unit) :
  keeps key m -> keeps key (when c m).
Proof. destruct c; [done|]. intros _. apply keeps_ret. Qed.

Lemma keeps_from_option {A} key e (o : option A) :
  keeps key (@from_option flush_state A e o).
Proof. destruct o; [apply keeps_ret | apply keeps_raise]. Qed.

Lemma keeps_hasattr key a : keeps key (hasattr a).
Proof. intros s s' r Hrun. unfold hasattr, gets in Hrun. by simplify_eq. Qed.

Lemma keeps_getattr key a : keeps key (getattr a).
Proof.
  apply keeps_bind.
  - intros s s' r Hrun. unfold gets in Hrun. by simplify_eq.
  - intros d. apply keeps_from_option.
Qed.

Lemma keeps_setattr key a v : key <> a -> keeps key (setattr a v).
Proof.
  intros Hne s s' r Hrun. unfold setattr, modify in Hrun. simplify_eq. simpl.
  by apply dict_get_set_ne.
Qed.

#[local] Hint Resolve keeps_ret keeps_raise keeps_from_option keeps_hasattr
  keeps_getattr keeps_setattr : inst_only.

(** The conditional [setattr] touch [path] and [name] only. *)
Lemma keeps_set_path_and_name key :
  key <> "path" -> key <> "name" -> keeps key set_path_and_name.
Proof.
  intros Hpath Hname. unfold set_path_and_name.
  repeat first [ solve [auto with inst_only]
               | apply keeps_when
               | apply keeps_bind; [|intros ?] ].
Qed.

(** The document of a node holds the node's own attributes: apart from
    [path] and [name], which the turn sets, and the five keys it pops, every
    key has in the document the value it has on the node. *)
Lemma document_get inst key :
  key ∉ keys_to_pop -> key <> "path" -> key <> "name" ->
  Dict.get key (document inst) = Dict.get key inst.
Proof.
  intros Hpop Hpath Hname. unfold document. rewrite pop_keys_keeps by done.
  unfold prepare.
  destruct (set_path_and_name (inst, ∅)) as [[i g] r] eqn:Hrun.
  by apply (keeps_set_path_and_name key Hpath Hname) in Hrun.
Qed.
End Keeps.

(** C1 (as amended): for a node whose file exists when its turn of the
    flush loop comes, the turn does not read the document the file holds and
    merges nothing.  It writes the dump of the node's own attributes (the
    five bookkeeping keys popped) from the start of the file and truncates
    the file there, so the file holds exactly that text whatever it held
    before, and a field that only the prior document had is gone. *)
Theorem flush_rewrites_existing_file `{!Externals} inst fs old inst' fs' :
  fs !! get_location inst = Some old ->
  flush_instance (inst, fs) = ((inst', fs'), inr tt) ->
  exists text,
    json_dump (document inst) = Dumped text
    /\ inst' = document inst
    /\ fs' = <[get_location inst := text]> fs
    /\ truncate (String.length text) (write_at_start text old) = text
    /\ (forall other,
          flush_instance (inst, <[get_location inst := other]> fs)
          = ((inst', fs'), inr tt))
    /\ (forall key, key ∉ keys_to_pop -> key <> "path" -> key <> "name" ->
          Dict.get key (document inst) = Dict.get key inst).
Proof.
  intros Hold Hrun.
  destruct (flush_instance_returns _ _ _ Hrun) as [[p text] Hw].
  destruct (flush_instance_write inst fs _ Hw) as (Hrun' & Hp & Hd).
  simpl in *. subst p. rewrite Hrun in Hrun'. simplify_eq.
  exists text. split_and!; try done.
  - apply truncate_write_at_start.
  - intros other.
    destruct (flush_instance_write inst (<[get_location inst := other]> fs) _ Hw)
      as (-> & _ & _). simpl. by rewrite insert_insert_eq.
  - intros key. apply document_get.
Qed.

Lemma flush_rewrites_existing_file_witness :
  exists text,
    @json_dump Demo.E0 (@document Demo.E0 Demo.sized_node) = Dumped text
    /\ [("size", PInt 10)] = @document Demo.E0 Demo.sized_node
    /\ {[ "./metadata/n1.json" := Demo.js "{'size': 10}" ]}
       = <[@get_location Demo.E0 Demo.sized_node := text]> Demo.described_files
    /\ truncate (String.length text)
         (write_at_start text (Demo.js "{'description': 'x'}")) = text
    /\ (forall other,
          @flush_instance Demo.E0
            (Demo.sized_node,
             <[@get_location Demo.E0 Demo.sized_node := other]>
               Demo.described_files)
          = (([("size", PInt 10)],
              {[ "./metadata/n1.json" := Demo.js "{'size': 10}" ]}), inr tt))
    /\ (forall key, key ∉ keys_to_pop -> key <> "path" -> key <> "name" ->
          Dict.get key (@document Demo.E0 Demo.sized_node)
          = Dict.get key Demo.sized_node).
Proof.
  apply (@flush_rewrites_existing_file Demo.E0 Demo.sized_node
           Demo.described_files (Demo.js "{'description': 'x'}"));
    vm_compute; reflexivity.
Defined.

(** C1, the claim as stated, fails: flushing the node that sets only
    [size = 10] over the document [{"description": "x"}] leaves a document
    without [description]. *)
Lemma flush_drops_prior_fields :
  ~ @flush_merges_prior Demo.E0 Demo.sized_node Demo.described_files.
Proof.
  intros Hmerge.
  destruct (Hmerge (Demo.js "{'description': 'x'}")
              [("description", PStr "x")] eq_refl eq_refl)
    as (inst' & fs' & text & doc & Hrun & Htext & Hdoc & _ & Hkept).
  vm_compute in Hrun. injection Hrun as <- <-.
  vm_compute in Htext. injection Htext as <-.
  vm_compute in Hdoc. injection Hdoc as <-.
  specialize (Hkept "description" (PStr "x") eq_refl eq_refl).
  vm_compute in Hkept. discriminate Hkept.
Qed.

(** ** The add action: the run as a whole *)

Section Run.
Context `{!Externals}.

(** A run of the add action that returns has opened the file, taken the
    loop over its lines to the end, linked the orphans, flushed and yielded
    its result record. *)
Lemma add_to_catalog_returns catalog path dataset_id dataset_version force
    config w w' :
  _add_to_catalog catalog (Some path) dataset_id dataset_version force config w
  = (w', inr tt) ->
  exists file u v,
    open_text path = Some file
    /\ add_lines catalog 0 file w = (u, inr tt)
    /\ flush_all (set_instances (link_orphans catalog (instances u)) u)
       = (v, inr tt)
    /\ w' = add_yield added_status v.
Proof.
  unfold _add_to_catalog. unfold bind at 1. unfold from_option.
  destruct (open_text path) as [file|]; [|done]. unfold ret at 1.
  unfold bind at 1.
  destruct (add_lines catalog 0 file w) as [u [e|[]]] eqn:Hlines; [done|].
  unfold bind at 1. unfold modify at 1. unfold bind at 1.
  destruct (flush_all _) as [v [e|[]]] eqn:Hflush; [done|].
  unfold yield, modify. intros [= <-]. by exists file, u, v.
Qed.

Lemma add_to_catalog_steps catalog path dataset_id dataset_version force
    config w file u :
  open_text path = Some file ->
  add_lines catalog 0 file w = (u, inr tt) ->
  _add_to_catalog catalog (Some path) dataset_id dataset_version force config w
  = (flush_all ;; yield added_status)
      (set_instances (link_orphans catalog (instances u)) u).
Proof.
  intros Hopen Hlines. unfold _add_to_catalog. unfold bind at 1.
  unfold from_option. rewrite Hopen. unfold ret at 1. unfold bind at 1.
  by rewrite Hlines.
Qed.
End Run.

(** C5 (as amended): an I/O error in the turn of one node is not caught.
    It ends the flush loop and the add action: the files are those the turns
    of the preceding nodes left, the node's own file and the files of the
    nodes after it are not written, those nodes stay in the registry as they
    were, nothing is logged about the failure and no result record is
    yielded. *)
Theorem flush_error_ends_the_run `{!Externals} catalog path dataset_id
    dataset_version force config file w w1 pre blob inst post pre' fs1 :
  open_text path = Some file ->
  add_lines catalog 0 file w = (w1, inr tt) ->
  link_orphans catalog (instances w1) = pre ++ (blob, inst) :: post ->
  flush_items pre (files w1) = (pre', fs1, inr tt) ->
  (prepare inst).2 = inr tt ->
  io_ok (get_location inst) = false ->
  exists w',
    _add_to_catalog catalog (Some path) dataset_id dataset_version force config w
    = (w', inl (OSError (get_location inst)))
    /\ files w' = fs1
    /\ instances w' = pre' ++ (blob, document inst) :: post
    /\ log w' = log w1
    /\ yielded w' = yielded w.
Proof.
  intros Hopen Hlines Hreg Hpre Hprep Hio.
  rewrite (add_to_catalog_steps _ _ _ _ _ _ _ _ _ Hopen Hlines).
  unfold bind at 1. unfold flush_all. simpl. rewrite Hreg.
  rewrite flush_items_app, Hpre. simpl.
  rewrite flush_instance_eq, Hprep. simpl. rewrite Hio.
  eexists. split; [reflexivity|]. simpl.
  apply add_lines_frame in Hlines as (_ & Hy & _). by split_and!.
Qed.

Lemma flush_error_ends_the_run_witness :
  let E := Demo.env Demo.inputs ["/cat/metadata/d1-v1-data.json"] in
  exists w',
    @_add_to_catalog E Demo.catalog (Some "three.jsonl") None None false None
      Demo.catalog_world
    = (w', inl (OSError "/cat/metadata/d1-v1-data.json"))
    /\ files w'
       = {[ "/cat/metadata/d1-v1.json" :=
              Demo.js "{'type': 'dataset', 'dataset_id': 'd1', 'dataset_version': 'v1', 'children': [], 'name': 'demo'}" ]}
    /\ length (instances w') = 3
    /\ log w' = []
    /\ yielded w' = [].
Proof.
  intros E.
  pose (w1 := (@add_lines E Demo.catalog 0
                 [Demo.dataset_line; Demo.dir_line; Demo.file_line]
                 Demo.catalog_world).1).
  pose (reg := link_orphans Demo.catalog (instances w1)).
  destruct (@flush_error_ends_the_run E Demo.catalog "three.jsonl" None None
              false None [Demo.dataset_line; Demo.dir_line; Demo.file_line]
              Demo.catalog_world w1
              (take 1 reg) "d1-v1-data" (default [] (snd <$> reg !! 1))
              (drop 2 reg)
              (@flush_items E (take 1 reg) ∅).1.1
              (@flush_items E (take 1 reg) ∅).1.2)
    as (w' & Hrun & Hfs & Hreg & Hlog & Hy);
    [vm_compute; reflexivity..|].
  exists w'. split; [exact Hrun|]. split_and!.
  - rewrite Hfs. vm_compute. reflexivity.
  - rewrite Hreg. vm_compute. reflexivity.
  - rewrite Hlog. vm_compute. reflexivity.
  - rewrite Hy. reflexivity.
Defined.

(** C5, the claim as stated, fails: with the file of the first of two
    nodes unwritable, the second node, whose own turn would succeed, is not
    flushed. *)
Lemma flush_error_blocks_other_nodes :
  ~ @flush_isolates_failures (Demo.env Demo.inputs [Demo.first_location])
      (mkWorld Demo.two_nodes ∅ ∅ [] []).
Proof.
  intros Hiso.
  specialize (Hiso "b" [("md5_hash", PStr "b"); ("size", PInt 2)]
                "./metadata/b.json" (Demo.js "{'size': 2}")).
  assert (("b", [("md5_hash", PStr "b"); ("size", PInt 2)])
          ∈ instances (mkWorld Demo.two_nodes ∅ ∅ [] [])) as Hin.
  { simpl. unfold Demo.two_nodes. set_solver. }
  destruct (Hiso Hin eq_refl) as [t Ht]. vm_compute in Ht. discriminate Ht.
Qed.



(** C7: a metadata file that holds one JSON array is read as one record,
    the array itself.  With the two records of [two.jsonl] written as an
    array on one line, the add action warns, validates the array as a whole
    and raises at line 1 without writing a file, while the same records on
    two lines are added and flushed to two files. *)
Theorem array_input_is_one_record :
  let as_array :=
    @_add_to_catalog Demo.E0 Demo.catalog (Some "two.json") None None false
      None Demo.catalog_world in
  let as_lines :=
    @_add_to_catalog Demo.E0 Demo.catalog (Some "two.jsonl") None None false
      None Demo.catalog_world in
  Demo.loads (rstrip Demo.records_as_array)
  = Some (PList (omap (fun l => Demo.loads (rstrip l))
                   [Demo.dataset_line; Demo.file_line]))
  /\ as_array.2
     = inl (ValidationError
              (add_validation_msg 1 "the value is not of type 'object'"))
  /\ log as_array.1 = [Warning not_dict_msg]
  /\ files as_array.1 = ∅
  /\ as_lines.2 = inr tt
  /\ length (instances as_lines.1) = 2
  /\ size (files as_lines.1) = 2.
Proof. vm_compute. by split_and!. Qed.

(** ** The validate action *)

Section ValidateLemmas.
Context `{!Externals}.

Lemma last_index_spec f :
  last_index f = match f with [] => None | _ :: _ => Some (length f - 1) end.
Proof.
  unfold last_index.
  assert (forall (g : list string) (start : nat) (acc : option nat),
            foldl (fun (_ : option nat) '(i, _) => Some i) acc
              (zip (seq start (length g)) g)
            = match g with
              | [] => acc
              | _ :: _ => Some (start + length g - 1)
              end) as Hgen.
  { induction g as [|l g IH]; intros start acc; simpl; [done|].
    rewrite IH. destruct g; simpl; f_equal; lia. }
  rewrite Hgen. by destruct f.
Qed.

(** The line-count helper: the number of lines of a file that has lines,
    and an exception on a file that has none, [i] never having been bound. *)
Lemma get_line_count_eq file f w :
  open_text file = Some f ->
  _get_line_count file w
  = (w, match f with
        | [] => inl (UnboundLocalError "i")
        | _ :: _ => inr (length f)
        end).
Proof.
  intros Hopen. unfold _get_line_count, bind, from_option. rewrite Hopen.
  unfold ret at 1. cbv beta iota. rewrite last_index_spec.
  destruct f as [|l f]; [done|].
  unfold ret. simpl. do 3 f_equal. lia.
Qed.

Lemma load_schemas_world names : forall st w w' r,
  load_schemas names st w = (w', r) -> w' = w.
Proof.
  induction names as [|s rest IH]; intros st w w' r Hrun; simpl in Hrun.
  - unfold ret in Hrun. by simplify_eq.
  - cbv [bind from_sum when] in Hrun.
    destruct (read_json_file (schema_path s)) as [e|schema];
      [run_monad; by simplify_eq|].
    cbv [ret] in Hrun.
    destruct (schema_id schema) as [e|id]; [run_monad; by simplify_eq|].
    destruct (Store.hashable id); simpl in Hrun; [|run_monad; by simplify_eq].
    by apply IH in Hrun.
Qed.

Lemma validate_line_frame cs r n i line w w' res :
  validate_line cs r n i line w = (w', res) ->
  files w' = files w /\ instances w' = instances w
  /\ yielded w' = yielded w /\ catalogs w' = catalogs w.
Proof. unfold validate_line. intros Hrun. step_monad; auto. Qed.

Lemma validate_lines_frame cs r n file : forall i w w' res,
  validate_lines cs r n i file w = (w', res) ->
  files w' = files w /\ instances w' = instances w
  /\ yielded w' = yielded w /\ catalogs w' = catalogs w.
Proof.
  induction file as [|line rest IH]; intros i w w' res Hrun; simpl in Hrun.
  - unfold ret in Hrun. simplify_eq. auto.
  - unfold bind in Hrun at 1.
    destruct (validate_line cs r n (S i) line w) as [u [e|[]]] eqn:Hline.
    + simplify_eq. eapply validate_line_frame; eauto.
    + apply validate_line_frame in Hline as (? & ? & ? & ?).
      apply IH in Hrun as (? & ? & ? & ?). split_and!; congruence.
Qed.

Lemma validate_lines_app cs r n pre post : forall i w,
  validate_lines cs r n i (pre ++ post) w =
  match validate_lines cs r n i pre w with
  | (w1, inr _) => validate_lines cs r n (i + length pre) post w1
  | (w1, inl e) => (w1, inl e)
  end.
Proof.
  induction pre as [|line rest IH]; intros i w; simpl.
  - by rewrite Nat.add_0_r.
  - unfold bind at 1 2.
    destruct (validate_line cs r n (S i) line w) as [w1 [e|[]]]; [done|].
    rewrite IH. by replace (S i + length rest) with (i + S (length rest)) by lia.
Qed.

(** *** The validate action does not look at the catalog directories *)

Lemma blind_ret {A} (a : A) : catalog_blind (ret a).
Proof. by intros w c. Qed.

Lemma blind_raise {A} e : catalog_blind (@raise world A e).
Proof. by intros w c. Qed.

Lemma blind_bind {A B} (m : M world A) (k : A -> M world B) :
  catalog_blind m -> (forall a, catalog_blind (k a)) -> catalog_blind (bind m k).
Proof.
  intros Hm Hk w c. unfold bind. rewrite Hm.
  destruct (m w) as [w1 [e|a]]; [done|]. apply Hk.
Qed.

Lemma blind_when c (m : M world unit) : catalog_blind m -> catalog_blind (when c m).
Proof. destruct c; [done|]. intros _. apply blind_ret. Qed.

Lemma blind_from_option {A} e (o : option A) :
  catalog_blind (@from_option world A e o).
Proof. destruct o; [apply blind_ret | apply blind_raise]. Qed.

Lemma blind_from_sum {A} (r : exn + A) : catalog_blind (@from_sum world A r).
Proof. destruct r; [apply blind_raise | apply blind_ret]. Qed.

Lemma blind_log ev : catalog_blind (modify (add_log ev)).
Proof. by intros w c. Qed.

Lemma blind_yield s : catalog_blind (yield s).
Proof. by intros w c. Qed.

Lemma blind_load_schemas names : forall st, catalog_blind (load_schemas names st).
Proof.
  induction names as [|s rest IH]; intros st; simpl.
  - apply blind_ret.
  - apply blind_bind; [apply blind_from_sum|]. intros schema.
    apply blind_bind; [apply blind_from_sum|]. intros id.
    apply blind_bind; [apply blind_when, blind_raise|]. intros _. apply IH.
Qed.

Lemma blind_get_line_count file : catalog_blind (_get_line_count file).
Proof.
  unfold _get_line_count. apply blind_bind; [apply blind_from_option|].
  intros f. destruct (last_index f); [apply blind_ret | apply blind_raise].
Qed.

Lemma blind_validate_line cs r n i line :
  catalog_blind (validate_line cs r n i line).
Proof.
  unfold validate_line. apply blind_bind; [apply blind_log|]. intros _.
  apply blind_bind; [apply blind_from_option|]. intros v.
  apply blind_bind; [apply blind_when, blind_log|]. intros _.
  destruct (Draft202012Validator cs r v); [apply blind_raise | apply blind_ret].
Qed.

Lemma blind_validate_lines cs r n file : forall i,
  catalog_blind (validate_lines cs r n i file).
Proof.
  induction file as [|line rest IH]; intros i; simpl.
  - apply blind_ret.
  - apply blind_bind; [apply blind_validate_line|]. intros _. apply IH.
Qed.

Lemma blind_validate_metadata catalog metadata dataset_id dataset_version
    force config :
  catalog_blind
    (_validate_metadata catalog metadata dataset_id dataset_version force config).
Proof.
  unfold _validate_metadata. destruct metadata as [path|]; [|apply blind_raise].
  apply blind_bind; [apply blind_load_schemas|]. intros st.
  apply blind_bind; [apply blind_from_option|]. intros cs.
  apply blind_bind; [apply blind_get_line_count|]. intros n.
  apply blind_bind; [apply blind_from_option|]. intros f.
  apply blind_bind; [apply blind_validate_lines|]. intros _. apply blind_yield.
Qed.
End ValidateLemmas.

Section StoreLemmas.
Context `{!Externals}.

Lemma key_eqb_refl k : Store.hashable k = true -> Store.key_eqb k k = true.
Proof.
  destruct k as [| b | z | s | xs | kvs | p | c]; simpl; try done; intros _.
  - by destruct b.
  - apply Z.eqb_refl.
  - apply String.eqb_refl.
  - apply String.eqb_refl.
  - unfold Store.catalog_eqb. rewrite String.eqb_refl.
    by rewrite !bool_decide_eq_true_2.
Qed.

Lemma store_get_set_eq k v d :
  Store.hashable k = true -> is_Some (Store.get k (Store.set k v d)).
Proof.
  intros Hk. induction d as [|[k' v'] d IH]; simpl.
  - rewrite key_eqb_refl by done. eauto.
  - destruct (Store.key_eqb k' k) eqn:E; simpl; rewrite E; eauto.
Qed.

Lemma store_get_set_mono k k' v d :
  is_Some (Store.get k d) -> is_Some (Store.get k (Store.set k' v d)).
Proof.
  induction d as [|[k1 v1] d IH]; simpl; [by intros [? ?]|].
  destruct (Store.key_eqb k1 k) eqn:E; intros Hk.
  - destruct (Store.key_eqb k1 k'); simpl; rewrite E; eauto.
  - destruct (Store.key_eqb k1 k'); simpl; rewrite E; eauto.
Qed.

Lemma store_fold_mono k loaded : forall st,
  is_Some (Store.get k st) -> is_Some (Store.get k (foldl store_add st loaded)).
Proof.
  induction loaded as [|[id doc] rest IH]; intros st Hk; simpl; [done|].
  apply IH. by apply store_get_set_mono.
Qed.

Lemma store_fold_covers loaded : forall st id doc,
  (id, doc) ∈ loaded -> Store.hashable id = true ->
  is_Some (Store.get id (foldl store_add st loaded)).
Proof.
  induction loaded as [|[id' doc'] rest IH]; intros st id doc Hin Hid; simpl.
  - by apply elem_of_nil in Hin.
  - apply elem_of_cons in Hin as [Heq|Hin].
    + injection Heq as <- <-. apply store_fold_mono. by apply store_get_set_eq.
    + by eapply IH.
Qed.

(** The store the loop builds holds, under its identifier, each schema
    document the loop read. *)
Lemma load_schemas_loaded names : forall st0 w w' st,
  load_schemas names st0 w = (w', inr st) ->
  exists loaded,
    Forall2 (fun s entry =>
               read_json_file (schema_path s) = inr entry.2
               /\ schema_id entry.2 = inr entry.1
               /\ Store.hashable entry.1 = true) names loaded
    /\ st = foldl store_add st0 loaded.
Proof.
  induction names as [|s rest IH]; intros st0 w w' st Hrun; simpl in Hrun.
  - cbv [ret] in Hrun. simplify_eq. by exists [].
  - cbv [bind from_sum when] in Hrun.
    destruct (read_json_file (schema_path s)) as [e|schema] eqn:Hread;
      [run_monad; by simplify_eq|].
    cbv [ret] in Hrun.
    destruct (schema_id schema) as [e|id] eqn:Hid; [run_monad; by simplify_eq|].
    destruct (Store.hashable id) eqn:Hhash; simpl in Hrun;
      [|run_monad; by simplify_eq].
    destruct (IH _ _ _ _ Hrun) as (loaded & Hall & ->).
    exists ((id, schema) :: loaded). split; [|done].
    by constructor.
Qed.
End StoreLemmas.

(** C10: on a file that has lines the line-count helper returns their
    number; on a file that has none it raises, [i] never having been bound,
    so the validate action on an empty file ends in an exception without
    having logged, validated or yielded anything; when the schemas load, the
    exception is the helper's. *)
Theorem line_count_raises_on_empty_file `{!Externals} file f w :
  open_text file = Some f ->
  _get_line_count file w
  = (w, match f with
        | [] => inl (UnboundLocalError "i")
        | _ :: _ => inr (length f)
        end)
  /\ (f = [] ->
      forall catalog dataset_id dataset_version force config,
      exists e,
        _validate_metadata catalog (Some file) dataset_id dataset_version
          force config w = (w, inl e)
        /\ forall st cs,
             (load_schemas schemas [] w).2 = inr st ->
             Store.get (PStr catalog_schema_id) st = Some cs ->
             e = UnboundLocalError "i").
Proof.
  intros Hopen. split; [by apply get_line_count_eq|].
  intros -> catalog dataset_id dataset_version force config.
  unfold _validate_metadata. unfold bind at 1.
  destruct (load_schemas schemas [] w) as [w0 [e|st]] eqn:Hload;
    pose proof (load_schemas_world _ _ _ _ _ Hload) as ->.
  { exists e. split; [done|]. intros st cs [=]. }
  unfold bind at 1. unfold from_option at 1.
  destruct (Store.get (PStr catalog_schema_id) st) as [cs|] eqn:Hget.
  - unfold ret at 1. unfold bind at 1.
    rewrite (get_line_count_eq _ _ _ Hopen).
    exists (UnboundLocalError "i"). split; [done|]. done.
  - unfold raise at 1. eexists. split; [done|].
    intros st' cs' [= <-]. congruence.
Qed.

Lemma line_count_raises_on_empty_file_witness :
  @_get_line_count Demo.E0 "empty.jsonl" Demo.empty_world
  = (Demo.empty_world, inl (UnboundLocalError "i"))
  /\ (@nil string = [] ->
      forall catalog dataset_id dataset_version force config,
      exists e,
        @_validate_metadata Demo.E0 catalog (Some "empty.jsonl") dataset_id
          dataset_version force config Demo.empty_world
        = (Demo.empty_world, inl e)
        /\ forall st cs,
             (@load_schemas Demo.E0 schemas [] Demo.empty_world).2 = inr st ->
             Store.get (PStr catalog_schema_id) st = Some cs ->
             e = UnboundLocalError "i").
Proof.
  apply (@line_count_raises_on_empty_file Demo.E0 "empty.jsonl" []
           Demo.empty_world).
  vm_compute. reflexivity.
Defined.

(** C8: the validate action takes no catalog.  Whatever the catalog
    directory argument (none included) and whatever the state of the catalog
    directories, the call reads the five schema documents into a store that
    holds each of them under its identifier, validates the lines against the
    catalog schema of that store with a resolver over that store, and at the
    first line that fails raises a validation error whose message carries the
    line's 1-based number; it touches neither the files nor the registry nor
    the catalog directories. *)
Theorem validate_needs_no_catalog `{!Externals} catalog_dir path dataset_id
    dataset_version force config w cats st cs pre line post v e w1 :
  (load_schemas schemas [] w).2 = inr st ->
  Store.get (PStr catalog_schema_id) st = Some cs ->
  open_text path = Some (pre ++ line :: post) ->
  validate_lines cs (mkRefResolver cs st) (length (pre ++ line :: post)) 0 pre w
  = (w1, inr tt) ->
  json_loads (rstrip line) = Some v ->
  Draft202012Validator cs (mkRefResolver cs st) v = Some e ->
  (exists loaded,
     Forall2 (fun s entry =>
                read_json_file (schema_path s) = inr entry.2
                /\ schema_id entry.2 = inr entry.1
                /\ Store.hashable entry.1 = true)
       ["catalog"; "dataset"; "file"; "authors"; "extractors"] loaded
     /\ st = foldl store_add [] loaded
     /\ forall entry, entry ∈ loaded -> is_Some (Store.get entry.1 st))
  /\ exists w',
       __call__ validate catalog_dir (Some path) dataset_id dataset_version
         force config (set_catalogs cats w)
       = (set_catalogs cats w',
          inl (ValidationError
                 ("Schema validation failed in LINE " +:+ pretty (S (length pre))
                  +:+ "/" +:+ pretty (length (pre ++ line :: post))
                  +:+ ": " +:+ LF +:+ LF +:+ e)))
       /\ files w' = files w /\ instances w' = instances w
       /\ yielded w' = yielded w.
Proof.
  intros Hload Hcs Hopen Hpre Hv He.
  destruct (load_schemas schemas [] w) as [w0 r] eqn:Hrun. simpl in Hload.
  subst r. pose proof (load_schemas_world _ _ _ _ _ Hrun) as ->. split.
  - destruct (load_schemas_loaded _ _ _ _ _ Hrun) as (loaded & Hall & ->).
    exists loaded. split_and!; [done..|].
    intros [id doc] Hin.
    apply list_elem_of_lookup in Hin as [j Hj].
    destruct (Forall2_lookup_r _ _ _ _ _ Hall Hj) as (s & _ & _ & _ & Hhash).
    eapply store_fold_covers; [|done]. apply list_elem_of_lookup. eauto.
  - unfold __call__. rewrite blind_validate_metadata.
    unfold _validate_metadata. unfold bind at 1. rewrite Hrun.
    unfold bind at 1. unfold from_option at 1. rewrite Hcs. unfold ret at 1.
    assert (_get_line_count path w = (w, inr (length (pre ++ line :: post))))
      as Hcount.
    { rewrite (get_line_count_eq _ _ _ Hopen). by destruct pre. }
    unfold bind at 1. rewrite Hcount.
    unfold bind at 1. unfold from_option at 1. rewrite Hopen. unfold ret at 1.
    unfold bind at 1. rewrite validate_lines_app, Hpre. simpl.
    unfold bind at 1. unfold validate_line.
    apply validate_lines_frame in Hpre as (Hf & Hi & Hy & _).
    unfold bind at 1. unfold modify at 1. unfold bind at 1.
    unfold from_option at 1. rewrite Hv. unfold ret at 1. unfold bind at 1.
    rewrite He.
    destruct (is_dict v); run_monad; simpl;
      (eexists; split; [reflexivity|]; simpl; by split_and!).
Qed.

Lemma validate_needs_no_catalog_witness :
  let st := [(PStr "https://datalad.org/catalog.schema.json", Demo.schema_doc "catalog");
             (PStr "https://datalad.org/dataset.schema.json", Demo.schema_doc "dataset");
             (PStr "https://datalad.org/file.schema.json", Demo.schema_doc "file");
             (PStr "https://datalad.org/authors.schema.json", Demo.schema_doc "authors");
             (PStr "https://datalad.org/extractors.schema.json", Demo.schema_doc "extractors")] in
  (exists loaded,
     Forall2 (fun s entry =>
                @read_json_file Demo.E0 (@schema_path Demo.E0 s) = inr entry.2
                /\ schema_id entry.2 = inr entry.1
                /\ Store.hashable entry.1 = true)
       ["catalog"; "dataset"; "file"; "authors"; "extractors"] loaded
     /\ st = foldl store_add [] loaded
     /\ forall entry, entry ∈ loaded -> is_Some (Store.get entry.1 st))
  /\ exists w',
       @__call__ Demo.E0 validate None (Some "invalid3.jsonl") None None false
         None (set_catalogs ∅ Demo.empty_world)
       = (set_catalogs ∅ w',
          inl (ValidationError
                 ("Schema validation failed in LINE " +:+ pretty 3
                  +:+ "/" +:+ pretty 4
                  +:+ ": " +:+ LF +:+ LF +:+ "a required property is missing")))
       /\ files w' = files Demo.empty_world
       /\ instances w' = instances Demo.empty_world
       /\ yielded w' = yielded Demo.empty_world.
Proof.
  intros st.
  apply (@validate_needs_no_catalog Demo.E0 None "invalid3.jsonl" None None
           false None Demo.empty_world ∅ st (Demo.schema_doc "catalog")
           [Demo.dataset_line; Demo.file_line] Demo.invalid_line
           [Demo.dir_line]
           (PDict [("type", PStr "file"); ("dataset_version", PStr "v1");
                   ("path", PStr "x")])
           "a required property is missing"
           (@validate_lines Demo.E0 (Demo.schema_doc "catalog")
              (mkRefResolver (Demo.schema_doc "catalog") st) 4 0
              [Demo.dataset_line; Demo.file_line] Demo.empty_world).1);
    vm_compute; reflexivity.
Defined.

(** * Further properties of the command *)

(** ** The dispatch and its guards *)

Section Dispatch.
Context `{!Externals}.

Lemma flush_all_frame w w' r :
  flush_all w = (w', r) ->
  log w' = log w /\ yielded w' = yielded w /\ catalogs w' = catalogs w.
Proof.
  unfold flush_all.
  destruct (flush_items (instances w) (files w)) as [[reg fs] r0].
  intros [= <- <-]. done.
Qed.

(** What the add action yields: its one record when it returns, nothing
    when it raises. *)
Lemma add_to_catalog_yielded catalog metadata dataset_id dataset_version
    force config w :
  let run := _add_to_catalog catalog metadata dataset_id dataset_version
               force config w in
  yielded run.1
  = yielded w ++ match run.2 with inr _ => [added_status] | inl _ => [] end.
Proof.
  simpl.
  destruct (_add_to_catalog catalog metadata dataset_id dataset_version force
              config w) as [w' r] eqn:Hrun. simpl.
  unfold _add_to_catalog in Hrun. destruct metadata as [path|].
  - unfold bind at 1 in Hrun. unfold from_option in Hrun.
    destruct (open_text path) as [file|].
    + unfold ret at 1 in Hrun. unfold bind at 1 in Hrun.
      destruct (add_lines catalog 0 file w) as [u [e|[]]] eqn:Hlines;
        apply add_lines_frame in Hlines as (_ & Hy & _).
      { injection Hrun as <- <-. by rewrite app_nil_r. }
      unfold bind at 1 in Hrun. unfold modify at 1 in Hrun.
      unfold bind at 1 in Hrun.
      destruct (flush_all _) as [v [e|[]]] eqn:Hflush;
        apply flush_all_frame in Hflush as (_ & Hy' & _); simpl in Hy'.
      * injection Hrun as <- <-. rewrite app_nil_r. congruence.
      * unfold yield, modify in Hrun. injection Hrun as <- <-. simpl.
        congruence.
    + unfold raise in Hrun. injection Hrun as <- <-. by rewrite app_nil_r.
  - unfold raise in Hrun. injection Hrun as <- <-. by rewrite app_nil_r.
Qed.
End Dispatch.

(** X1: every action but validate and create asks for a created catalog.
    Without a catalog directory argument, or with a directory that is not a
    created catalog, the call raises (insufficient arguments, or file exists
    for a directory that holds something else) and leaves the world as it
    was: nothing is read, written or yielded. *)
Theorem actions_need_created_catalog `{!Externals} a dir metadata dataset_id
    dataset_version force config w :
  a <> validate -> a <> create ->
  (forall d, dir = Some d -> catalogs w !! d <> Some true) ->
  exists msg,
    __call__ a dir metadata dataset_id dataset_version force config w
    = (w, inl (InsufficientArgumentsError msg))
    \/ __call__ a dir metadata dataset_id dataset_version force config w
       = (w, inl (FileExistsError msg)).
Proof.
  intros Hv Hc Hdir. destruct dir as [d|].
  - specialize (Hdir d eq_refl).
    unfold __call__, path_exists, catalog_is_created. simpl.
    destruct (catalogs w !! d) as [[|]|] eqn:Hd; [done| |].
    + exists (not_a_catalog_msg d). right.
      destruct a; try done; run_monad; simpl; by rewrite Hd.
    + exists (no_catalog_msg a). left.
      destruct a; try done; run_monad; simpl; by rewrite Hd.
  - exists no_catalog_dir_msg. left. by destruct a.
Qed.

Lemma actions_need_created_catalog_witness :
  exists msg,
    @__call__ Demo.E0 add (Some "/plain") (Some "two.jsonl") None None false
      None DemoMore.mixed_world
    = (DemoMore.mixed_world, inl (InsufficientArgumentsError msg))
    \/ @__call__ Demo.E0 add (Some "/plain") (Some "two.jsonl") None None false
         None DemoMore.mixed_world
       = (DemoMore.mixed_world, inl (FileExistsError msg)).
Proof.
  apply (@actions_need_created_catalog Demo.E0 add (Some "/plain")
           (Some "two.jsonl") None None false None DemoMore.mixed_world).
  - discriminate.
  - discriminate.
  - intros d [= <-]. vm_compute. discriminate.
Defined.

(** X2: create never overwrites what it was not asked to.  On a
    directory that exists and holds no catalog it raises file exists, with or
    without force; on a created catalog without force it raises insufficient
    arguments.  In both cases the world is left as it was. *)
Theorem create_refuses_existing_directory `{!Externals} d (b : bool) metadata
    dataset_id dataset_version force config w :
  catalogs w !! d = Some b ->
  (b = true -> force = false) ->
  __call__ create (Some d) metadata dataset_id dataset_version force config w
  = (w, inl (if b then InsufficientArgumentsError catalog_exists_msg
             else FileExistsError (not_a_catalog_msg d))).
Proof.
  intros Hd Hforce. unfold __call__, path_exists, catalog_is_created.
  run_monad. simpl. rewrite Hd. destruct b; simpl; [|done].
  by rewrite (Hforce eq_refl).
Qed.

Lemma create_refuses_existing_directory_witness :
  @__call__ Demo.E0 create (Some "/plain") (Some "two.jsonl") None None true
    None DemoMore.mixed_world
  = (DemoMore.mixed_world, inl (FileExistsError (not_a_catalog_msg "/plain"))).
Proof.
  apply (@create_refuses_existing_directory Demo.E0 "/plain" false
           (Some "two.jsonl") None None true None DemoMore.mixed_world).
  - vm_compute. reflexivity.
  - discriminate.
Defined.

(** X3: a create that passes the guards and is given no metadata marks
    the directory as a created catalog, yields exactly one record and
    returns; the record says created for a new directory and overwritten for
    an existing catalog, and its message is never empty.  Files and registry
    are left as they were. *)
Theorem create_yields_one_record `{!Externals} d dataset_id dataset_version
    force config w :
  catalogs w !! d <> Some false ->
  (catalogs w !! d = Some true -> force = true) ->
  __call__ create (Some d) None dataset_id dataset_version force config w
  = (add_yield
       (mkStatus "catalog create" "ok"
          (match catalogs w !! d with
           | Some _ => "Catalog assets successfully overwritten at: " +:+ d
           | None => "Catalog successfully created at: " +:+ d
           end))
       (set_catalogs (<[d := true]> (catalogs w)) w), inr tt).
Proof.
  intros Hplain Hforce.
  unfold __call__, _create_catalog, catalog_create, path_exists,
    catalog_is_created.
  run_monad. simpl.
  destruct (catalogs w !! d) as [[|]|] eqn:Hd; simpl; [|done|].
  - rewrite (Hforce eq_refl). simpl.
    unfold _create_catalog, catalog_create, catalog_is_created. run_monad.
    simpl. by rewrite Hd.
  - unfold _create_catalog, catalog_create, catalog_is_created. run_monad.
    simpl. by rewrite Hd.
Qed.

Lemma create_yields_one_record_witness :
  @__call__ Demo.E0 create (Some "/new") None None None false None
    Demo.empty_world
  = (mkWorld [] ∅ {["/new" := true]} []
       [mkStatus "catalog create" "ok" "Catalog successfully created at: /new"],
     inr tt).
Proof.
  apply (@create_yields_one_record Demo.E0 "/new" None None false None
           Demo.empty_world).
  - vm_compute. discriminate.
  - vm_compute. discriminate.
Defined.

(** X4: a create that passes the guards and is given metadata is the
    create without metadata followed by the add action on the catalog just
    created.  The create record is yielded first and stays yielded whatever
    the add does; the add record follows only when the add returns. *)
Theorem create_with_metadata_then_adds `{!Externals} d path dataset_id
    dataset_version force config w :
  catalogs w !! d <> Some false ->
  (catalogs w !! d = Some true -> force = true) ->
  let created :=
    (__call__ create (Some d) None dataset_id dataset_version force config w).1 in
  let run :=
    __call__ create (Some d) (Some path) dataset_id dataset_version force
      config w in
  run = _add_to_catalog (mkWebCatalog d dataset_id dataset_version config)
          (Some path) dataset_id dataset_version force config created
  /\ yielded created = yielded w ++ [mkStatus "catalog create" "ok"
       (match catalogs w !! d with
        | Some _ => "Catalog assets successfully overwritten at: " +:+ d
        | None => "Catalog successfully created at: " +:+ d
        end)]
  /\ yielded run.1
     = yielded created
       ++ match run.2 with inr _ => [added_status] | inl _ => [] end.
Proof.
  intros Hplain Hforce created run.
  assert (run = _add_to_catalog (mkWebCatalog d dataset_id dataset_version config)
                  (Some path) dataset_id dataset_version force config created)
    as Hrun.
  { unfold run, created.
    unfold __call__, _create_catalog, catalog_create, path_exists,
      catalog_is_created.
    run_monad. simpl.
    destruct (catalogs w !! d) as [[|]|] eqn:Hd; simpl; [|done|].
    - rewrite (Hforce eq_refl). simpl.
      unfold _create_catalog, catalog_create, catalog_is_created. run_monad.
      simpl. by rewrite Hd.
    - unfold _create_catalog, catalog_create, catalog_is_created. run_monad.
      simpl. by rewrite Hd. }
  split_and!; [done| |].
  - unfold created.
    unfold __call__, _create_catalog, catalog_create, path_exists,
      catalog_is_created.
    run_monad. simpl.
    destruct (catalogs w !! d) as [[|]|] eqn:Hd; simpl; [|done|].
    + rewrite (Hforce eq_refl). simpl.
      unfold _create_catalog, catalog_create, catalog_is_created. run_monad.
      simpl. by rewrite Hd.
    + unfold _create_catalog, catalog_create, catalog_is_created. run_monad.
      simpl. by rewrite Hd.
  - rewrite Hrun. apply add_to_catalog_yielded.
Qed.

Lemma create_with_metadata_then_adds_witness :
  let created :=
    (@__call__ Demo.E0 create (Some "/cat") None None None false None
       Demo.empty_world).1 in
  let run :=
    @__call__ Demo.E0 create (Some "/cat") (Some "invalid3.jsonl") None None
      false None Demo.empty_world in
  run = @_add_to_catalog Demo.E0 (mkWebCatalog "/cat" None None None)
          (Some "invalid3.jsonl") None None false None created
  /\ yielded created = yielded Demo.empty_world ++ [mkStatus "catalog create" "ok"
       (match catalogs Demo.empty_world !! "/cat" with
        | Some _ => "Catalog assets successfully overwritten at: " +:+ "/cat"
        | None => "Catalog successfully created at: " +:+ "/cat"
        end)]
  /\ yielded run.1
     = yielded created
       ++ match run.2 with inr _ => [added_status] | inl _ => [] end.
Proof.
  apply (@create_with_metadata_then_adds Demo.E0 "/cat" "invalid3.jsonl" None
           None false None Demo.empty_world).
  - vm_compute. discriminate.
  - vm_compute. discriminate.
Defined.

(** X5: the remove action removes nothing.  Whatever its arguments, a
    call leaves the files, the registry, the catalog directories and the log
    as they were; it yields a record only to report a missing dataset
    identifier or version, before it exits. *)
Theorem remove_removes_nothing `{!Externals} dir metadata dataset_id
    dataset_version force config w :
  let run :=
    __call__ remove dir metadata dataset_id dataset_version force config w in
  files run.1 = files w /\ instances run.1 = instances w
  /\ catalogs run.1 = catalogs w /\ log run.1 = log w
  /\ yielded run.1
     = yielded w ++ match run.2 with
                    | inl (SystemExit _) =>
                        [mkStatus "catalog remove" "error" remove_msg]
                    | _ => []
                    end.
Proof.
  simpl. unfold __call__, _remove_from_catalog, path_exists, catalog_is_created.
  destruct dir as [d|]; run_monad; simpl; [|by rewrite app_nil_r].
  destruct (catalogs w !! d) as [[|]|]; simpl; try by rewrite app_nil_r.
  destruct (missing dataset_id || missing dataset_version); simpl;
    [done|by rewrite app_nil_r].
Qed.

(** X6: set-super on a created catalog with the dataset identifier or
    the version missing (absent or the empty string) raises insufficient
    arguments before the catalog is touched: the world is left as it was and
    nothing is yielded. *)
Theorem set_super_needs_id_and_version `{!Externals} d metadata dataset_id
    dataset_version force config w :
  catalogs w !! d = Some true ->
  missing dataset_id || missing dataset_version = true ->
  __call__ set_super (Some d) metadata dataset_id dataset_version force config w
  = (w, inl (InsufficientArgumentsError set_super_msg)).
Proof.
  intros Hd Hmiss.
  unfold __call__, _set_super_of_catalog, path_exists, catalog_is_created.
  run_monad. simpl. rewrite Hd. simpl.
  unfold _set_super_of_catalog. run_monad. by rewrite Hmiss.
Qed.

Lemma set_super_needs_id_and_version_witness :
  @__call__ Demo.E0 set_super (Some "/cat") None (Some "d1") (Some "") false
    None Demo.catalog_world
  = (Demo.catalog_world, inl (InsufficientArgumentsError set_super_msg)).
Proof.
  apply (@set_super_needs_id_and_version Demo.E0 "/cat" None (Some "d1")
           (Some "") false None Demo.catalog_world);
    vm_compute; reflexivity.
Defined.

(** ** The add action: its outcome on other inputs *)

(** X7: the add action yields its result record exactly when it
    returns: one record, after the flush; a run that raises, at any point,
    yields nothing. *)
Theorem add_yields_only_on_return `{!Externals} catalog metadata dataset_id
    dataset_version force config w :
  let run := _add_to_catalog catalog metadata dataset_id dataset_version
               force config w in
  yielded run.1
  = yielded w ++ match run.2 with inr _ => [added_status] | inl _ => [] end.
Proof. apply add_to_catalog_yielded. Qed.

(** X8: a line that is not JSON ends the add action with the decode
    error of [json.loads], which carries no line number.  The world is
    exactly the one the lines before it left: no warning is logged for the
    line, it is not validated, no file is written, and the nodes translated
    from the lines before it stay in the registry. *)
Theorem add_aborts_at_broken_line `{!Externals} catalog path dataset_id
    dataset_version force config pre line post w w1 :
  open_text path = Some (pre ++ line :: post) ->
  add_lines catalog 0 pre w = (w1, inr tt) ->
  json_loads (rstrip line) = None ->
  _add_to_catalog catalog (Some path) dataset_id dataset_version force config w
  = (w1, inl JSONDecodeError)
  /\ files w1 = files w.
Proof.
  intros Hopen Hpre Hline. split.
  - unfold _add_to_catalog. unfold bind at 1. unfold from_option at 1.
    rewrite Hopen. unfold ret at 1. unfold bind at 1.
    rewrite add_lines_app, Hpre. simpl. unfold bind at 1. unfold add_line.
    unfold bind at 1. unfold from_option at 1. by rewrite Hline.
  - by apply add_lines_frame in Hpre as (? & _).
Qed.

Lemma add_aborts_at_broken_line_witness :
  let w1 := (@add_lines DemoMore.E1 Demo.catalog 0 [Demo.dataset_line]
               Demo.catalog_world).1 in
  @_add_to_catalog DemoMore.E1 Demo.catalog (Some "broken2.jsonl") None None
    false None Demo.catalog_world
  = (w1, inl JSONDecodeError)
  /\ files w1 = files Demo.catalog_world.
Proof.
  apply (@add_aborts_at_broken_line DemoMore.E1 Demo.catalog "broken2.jsonl"
           None None false None [Demo.dataset_line] DemoMore.broken_line
           [Demo.file_line] Demo.catalog_world);
    vm_compute; reflexivity.
Defined.

(** X9: a validation failure rolls nothing back.  When line [i] fails
    validation, the world the add action leaves is the one the lines before
    it left, with the warning added when the value is not an object: the
    nodes translated from lines 1 to [i - 1] are still in [Node._instances]. *)
Theorem add_keeps_registry_at_invalid_line `{!Externals} catalog path
    dataset_id dataset_version force config pre line post v e w w1 :
  open_text path = Some (pre ++ line :: post) ->
  add_lines catalog 0 pre w = (w1, inr tt) ->
  json_loads (rstrip line) = Some v ->
  VALIDATOR catalog v = Some e ->
  _add_to_catalog catalog (Some path) dataset_id dataset_version force config w
  = (if is_dict v then w1 else add_log (Warning not_dict_msg) w1,
     inl (ValidationError (add_validation_msg (S (length pre)) e)))
  /\ instances (if is_dict v then w1 else add_log (Warning not_dict_msg) w1)
     = instances w1.
Proof.
  intros Hopen Hpre Hv He. split; [|by destruct (is_dict v)].
  unfold _add_to_catalog. unfold bind at 1. unfold from_option at 1.
  rewrite Hopen. unfold ret at 1. unfold bind at 1.
  rewrite add_lines_app, Hpre. simpl. unfold bind at 1. unfold add_line.
  unfold bind at 1. unfold from_option at 1. rewrite Hv. unfold ret at 1.
  unfold bind at 1. destruct (is_dict v); run_monad; simpl; by rewrite He.
Qed.

Lemma add_keeps_registry_at_invalid_line_witness :
  let w1 := (@add_lines Demo.E0 Demo.catalog 0
               [Demo.dataset_line; Demo.file_line] Demo.catalog_world).1 in
  @_add_to_catalog Demo.E0 Demo.catalog (Some "invalid3.jsonl") None None false
    None Demo.catalog_world
  = (w1, inl (ValidationError
                (add_validation_msg 3 "a required property is missing")))
  /\ instances w1 = instances w1.
Proof.
  apply (@add_keeps_registry_at_invalid_line Demo.E0 Demo.catalog
           "invalid3.jsonl" None None false None
           [Demo.dataset_line; Demo.file_line] Demo.invalid_line
           [Demo.dir_line]
           (PDict [("type", PStr "file"); ("dataset_version", PStr "v1");
                   ("path", PStr "x")])
           "a required property is missing" Demo.catalog_world);
    vm_compute; reflexivity.
Defined.

(** X10: on a metadata file without lines the add action does not fail
    (the validate action does): with an empty registry it writes nothing,
    logs nothing, yields its result record and returns. *)
Theorem add_empty_file_succeeds `{!Externals} catalog path dataset_id
    dataset_version force config w :
  open_text path = Some [] ->
  instances w = [] ->
  _add_to_catalog catalog (Some path) dataset_id dataset_version force config w
  = (add_yield added_status w, inr tt).
Proof.
  intros Hopen Hreg. unfold _add_to_catalog. unfold bind at 1.
  unfold from_option at 1. rewrite Hopen. unfold flush_all. run_monad. simpl.
  rewrite Hreg. simpl. destruct w. simpl in *. by subst.
Qed.

Lemma add_empty_file_succeeds_witness :
  @_add_to_catalog Demo.E0 Demo.catalog (Some "empty.jsonl") None None false
    None Demo.catalog_world
  = (add_yield added_status Demo.catalog_world, inr tt).
Proof.
  apply (@add_empty_file_succeeds Demo.E0 Demo.catalog "empty.jsonl" None None
           false None Demo.catalog_world);
    vm_compute; reflexivity.
Defined.

(** X11: the flush strips the registry itself.  After an add action that
    returns, no instance of [Node._instances] has any of the attributes
    [node_path], [long_name], [md5_hash], [file_name] and [parent_catalog]
    any more: every node is an orphan again. *)
Theorem add_leaves_registry_stripped `{!Externals} catalog path dataset_id
    dataset_version force config w w' :
  _add_to_catalog catalog (Some path) dataset_id dataset_version force config w
  = (w', inr tt) ->
  forall blob inst, (blob, inst) ∈ instances w' ->
    is_orphan inst = true
    /\ forall key, key ∈ keys_to_pop -> Dict.has key inst = false.
Proof.
  intros Hrun blob inst Hin.
  destruct (add_to_catalog_returns _ _ _ _ _ _ _ _ Hrun)
    as (file & u & v & _ & _ & Hflush & ->).
  destruct (flush_all_plan _ _ Hflush) as (ws & _ & _ & Hreg & _).
  simpl in Hin. rewrite Hreg in Hin. unfold flushed in Hin.
  apply list_elem_of_fmap in Hin as ([b i] & [= -> ->] & _).
  split.
  - unfold is_orphan. pose proof (document_lacks_keys i "parent_catalog") as Hk.
    unfold Dict.has in Hk.
    destruct (Dict.get "parent_catalog" (document i)); [|done].
    discriminate Hk. unfold keys_to_pop. set_solver.
  - intros key. apply document_lacks_keys.
Qed.

Lemma add_leaves_registry_stripped_witness :
  let inst := [("type", PStr "dataset"); ("dataset_id", PStr "d1");
               ("dataset_version", PStr "v1"); ("children", PList []);
               ("name", PStr "demo")] in
  is_orphan inst = true
  /\ forall key, key ∈ keys_to_pop -> Dict.has key inst = false.
Proof.
  intros inst.
  apply (@add_leaves_registry_stripped Demo.E0 Demo.catalog "three.jsonl" None
           None false None Demo.catalog_world
           (@_add_to_catalog Demo.E0 Demo.catalog (Some "three.jsonl") None
              None false None Demo.catalog_world).1 eq_refl "d1-v1" inst).
  vm_compute. apply list_elem_of_here.
Defined.

(** ** The flush: one turn *)

Section Turn.
Context `{!Externals}.

Lemma dict_has_set_ne k k' v d :
  k <> k' -> Dict.has k (Dict.set k' v d) = Dict.has k d.
Proof. intros Hne. unfold Dict.has. by rewrite dict_get_set_ne. Qed.

Lemma path_not_popped : "path" ∉ keys_to_pop.
Proof. by apply (bool_decide_unpack _). Qed.

Lemma name_not_popped : "name" ∉ keys_to_pop.
Proof. by apply (bool_decide_unpack _). Qed.

(** An instance without [node_path] is left as it is by the conditional
    [setattr]. *)
Lemma prepare_without_path inst :
  Dict.get "node_path" inst = None -> prepare inst = (inst, inr tt).
Proof.
  intros Hnp. unfold prepare, set_path_and_name, hasattr, Dict.has.
  run_monad. simpl. rewrite Hnp. simpl. by rewrite Hnp.
Qed.

(** An instance with [node_path] and [type]: the path is set unless the
    node is a dataset, then the name when it is a directory. *)
Lemma prepare_with_path inst np ty :
  Dict.get "node_path" inst = Some np ->
  Dict.get "type" inst = Some ty ->
  prepare inst =
  let inst1 := if eq_str ty "dataset" then inst
               else Dict.set "path" (PStr (py_str np)) inst in
  if eq_str ty "directory" then
    match attr_name np with
    | Some name => (Dict.set "name" name inst1, inr tt)
    | None => (inst1, inl (AttributeError "name"))
    end
  else (inst1, inr tt).
Proof.
  intros Hnp Hty. unfold prepare, set_path_and_name, hasattr, getattr, setattr,
    Dict.has.
  run_monad. simpl.
  destruct (eq_str ty "dataset") eqn:Hds;
    repeat (cbn [fst snd negb];
            first [ rewrite Hnp | rewrite Hty | rewrite Hds
                  | rewrite dict_get_set_ne by done ]);
    cbn [fst snd negb];
    destruct (eq_str ty "directory");
    repeat (cbn [fst snd negb];
            first [ rewrite Hnp | rewrite Hty
                  | rewrite dict_get_set_ne by done ]);
    cbn [fst snd negb]; by destruct (attr_name np).
Qed.

(** A turn changes no file but the one at the node's location. *)
Lemma flush_instance_other inst fs inst' fs' r path :
  flush_instance (inst, fs) = ((inst', fs'), r) ->
  get_location inst <> path -> fs' !! path = fs !! path.
Proof.
  rewrite flush_instance_eq. simpl. intros Hrun Hne.
  destruct (prepare inst).2 as [e|[]]; [by simplify_eq|].
  destruct (io_ok (get_location inst)); [|by simplify_eq].
  destruct (json_dump (document inst)); simplify_eq;
    by rewrite lookup_insert_ne.
Qed.

Lemma flush_items_other todo : forall fs todo' fs' r path,
  flush_items todo fs = (todo', fs', r) ->
  (forall blob inst, (blob, inst) ∈ todo -> get_location inst <> path) ->
  fs' !! path = fs !! path.
Proof.
  induction todo as [|[blob inst] rest IH]; intros fs todo' fs' r path Hrun Hne;
    simpl in Hrun.
  - by simplify_eq.
  - destruct (flush_instance (inst, fs)) as [[inst1 fs1] r1] eqn:Hturn.
    assert (fs1 !! path = fs !! path) as Hfs1.
    { eapply flush_instance_other; [done|]. eapply Hne, list_elem_of_here. }
    destruct r1 as [e|[]]; [by simplify_eq|].
    destruct (flush_items rest fs1) as [[rest' fs2] r2] eqn:Hrest.
    simplify_eq. rewrite <- Hfs1. eapply IH; [done|].
    intros b i Hin. eapply Hne, list_elem_of_further, Hin.
Qed.

Lemma plan_app pre post : forall ws,
  plan (pre ++ post) = Some ws ->
  exists ws1 ws2, plan pre = Some ws1 /\ plan post = Some ws2 /\ ws = ws1 ++ ws2.
Proof.
  induction pre as [|[blob inst] rest IH]; intros ws Hplan; simpl in *.
  - by exists [], ws.
  - destruct (write_of inst) as [w|]; [|done].
    destruct (plan (rest ++ post)) as [ws'|] eqn:Hrest; [|done].
    simplify_eq. destruct (IH _ eq_refl) as (ws1 & ws2 & -> & Hpost & ->).
    by exists (w :: ws1), ws2.
Qed.

Lemma last_write_app path ws1 ws2 :
  last_write path (ws1 ++ ws2) =
  match last_write path ws2 with
  | Some t => Some t
  | None => last_write path ws1
  end.
Proof.
  induction ws1 as [|[p t] rest IH]; simpl.
  - by destruct (last_write path ws2).
  - rewrite IH. by destruct (last_write path ws2).
Qed.
End Turn.

(** X12: what a turn of the flush adds to a node that has [node_path]
    and [type].  When the turn succeeds, the node that is not a dataset has
    [path] set to the text of [node_path], the directory has in addition
    [name] set to the name of [node_path], and the dataset has [path] and
    [name] as they were. *)
Theorem flush_sets_path_and_name `{!Externals} inst fs inst' fs' np ty :
  flush_instance (inst, fs) = ((inst', fs'), inr tt) ->
  Dict.get "node_path" inst = Some np ->
  Dict.get "type" inst = Some ty ->
  (eq_str ty "dataset" = false ->
   Dict.get "path" inst' = Some (PStr (py_str np)))
  /\ (eq_str ty "directory" = true ->
      exists name, attr_name np = Some name
                   /\ Dict.get "name" inst' = Some name)
  /\ (eq_str ty "directory" = false ->
      Dict.get "name" inst' = Dict.get "name" inst)
  /\ (eq_str ty "dataset" = true ->
      Dict.get "path" inst' = Dict.get "path" inst).
Proof.
  intros Hrun Hnp Hty.
  destruct (flush_instance_returns _ _ _ Hrun) as [wr Hw].
  destruct (flush_instance_write inst fs _ Hw) as (Hrun' & _ & _).
  rewrite Hrun in Hrun'. injection Hrun' as -> _.
  assert ((prepare inst).2 = inr tt) as Hok.
  { unfold write_of in Hw. by destruct (prepare inst).2 as [?|[]]. }
  unfold document.
  rewrite (pop_keys_keeps _ "path" path_not_popped).
  rewrite (pop_keys_keeps _ "name" name_not_popped).
  rewrite (prepare_with_path inst np ty Hnp Hty) in Hok |- *.
  destruct (eq_str ty "directory") eqn:Hdir, (eq_str ty "dataset") eqn:Hds,
    (attr_name np) as [name|] eqn:Hname;
    simpl in *; try done; split_and!; intros; try done;
    try (exists name; split; [done|]);
    repeat first [ rewrite dict_get_set_eq
                 | rewrite dict_get_set_ne by done ];
    done.
Qed.

Lemma flush_sets_path_and_name_witness :
  let inst' := (@flush_instance Demo.E0 (DemoMore.dir_node, ∅)).1.1 in
  (eq_str (PStr "directory") "dataset" = false ->
   Dict.get "path" inst' = Some (PStr (@py_str Demo.E0 (PPath "data/raw"))))
  /\ (eq_str (PStr "directory") "directory" = true ->
      exists name, @attr_name Demo.E0 (PPath "data/raw") = Some name
                   /\ Dict.get "name" inst' = Some name)
  /\ (eq_str (PStr "directory") "directory" = false ->
      Dict.get "name" inst' = Dict.get "name" DemoMore.dir_node)
  /\ (eq_str (PStr "directory") "dataset" = true ->
      Dict.get "path" inst' = Dict.get "path" DemoMore.dir_node).
Proof.
  intros inst'.
  apply (@flush_sets_path_and_name Demo.E0 DemoMore.dir_node ∅ inst'
           (@flush_instance Demo.E0 (DemoMore.dir_node, ∅)).1.2
           (PPath "data/raw") (PStr "directory"));
    vm_compute; reflexivity.
Defined.

Example flush_directory_document :
  (@flush_instance Demo.E0 (DemoMore.dir_node, ∅)).1.1
  = [("type", PStr "directory"); ("children", PList []);
     ("path", PStr "data/raw"); ("name", PStr "raw")].
Proof. vm_compute. reflexivity. Qed.

(** X13: a node that has [node_path] and no [type] cannot be flushed:
    its turn raises the attribute error for [type] and leaves the instance
    and the files exactly as they were. *)
Theorem flush_needs_type `{!Externals} inst fs v :
  Dict.get "node_path" inst = Some v ->
  Dict.get "type" inst = None ->
  flush_instance (inst, fs) = ((inst, fs), inl (AttributeError "type")).
Proof.
  intros Hnp Hty. rewrite flush_instance_eq.
  assert (prepare inst = (inst, inl (AttributeError "type"))) as ->; [|done].
  unfold prepare, set_path_and_name, hasattr, getattr, Dict.has.
  run_monad. simpl. rewrite Hnp. simpl. by rewrite Hty.
Qed.

Lemma flush_needs_type_witness :
  @flush_instance Demo.E0 ([("node_path", PPath "a"); ("md5_hash", PStr "h")], ∅)
  = (([("node_path", PPath "a"); ("md5_hash", PStr "h")], ∅),
     inl (AttributeError "type")).
Proof.
  apply (@flush_needs_type Demo.E0
           [("node_path", PPath "a"); ("md5_hash", PStr "h")] ∅ (PPath "a"));
    vm_compute; reflexivity.
Defined.



(** X15: a dump that fails half way over an existing file corrupts it.
    The text written before the failure replaces the start of the file, the
    truncation is not reached, and what the old document held beyond that
    point stays; the turn raises the type error. *)
Theorem failed_dump_keeps_old_tail `{!Externals} inst fs old partial :
  fs !! get_location inst = Some old ->
  (prepare inst).2 = inr tt ->
  io_ok (get_location inst) = true ->
  json_dump (document inst) = DumpFailed partial ->
  flush_instance (inst, fs)
  = ((document inst,
      <[get_location inst := partial +:+ str_drop (String.length partial) old]> fs),
     inl TypeError).
Proof.
  intros Hold Hprep Hio Hdump. rewrite flush_instance_eq. simpl.
  by rewrite Hprep, Hio, Hdump, Hold.
Qed.

Lemma failed_dump_keeps_old_tail_witness :
  let old := Demo.js "{'description': 'a long description of the node'}" in
  let partial := Demo.js "{'size': 1, 'where': " in
  @flush_instance Demo.E0
    (DemoMore.unserialisable_node, {[ "./metadata/h2.json" := old ]})
  = ((@document Demo.E0 DemoMore.unserialisable_node,
      <[@get_location Demo.E0 DemoMore.unserialisable_node :=
          partial +:+ str_drop (String.length partial) old]>
        {[ "./metadata/h2.json" := old ]}),
     inl TypeError).
Proof.
  intros old partial.
  apply (@failed_dump_keeps_old_tail Demo.E0 DemoMore.unserialisable_node
           {[ "./metadata/h2.json" := old ]} old partial);
    vm_compute; reflexivity.
Defined.

Example failed_dump_text :
  (@flush_instance Demo.E0
     (DemoMore.unserialisable_node,
      {[ "./metadata/h2.json" :=
           Demo.js "{'description': 'a long description of the node'}" ]})).1.2
  !! "./metadata/h2.json"
  = Some (Demo.js "{'size': 1, 'where': ng description of the node'}").
Proof. vm_compute. reflexivity. Qed.

(** ** The flush: the loop *)

(** X16: after a flush that runs to its end, the file of a node holds
    the dump of that node's own document, unless a node later in the registry
    has the same location (the later one then overwrites it). *)
Theorem flush_writes_own_document `{!Externals} w w' pre blob inst post :
  flush_all w = (w', inr tt) ->
  instances w = pre ++ (blob, inst) :: post ->
  (forall b i, (b, i) ∈ post -> get_location i <> get_location inst) ->
  exists text,
    json_dump (document inst) = Dumped text
    /\ files w' !! get_location inst = Some text.
Proof.
  intros Hrun Hreg Hlater.
  destruct (flush_all_plan _ _ Hrun) as (ws & Hplan & Hfs & _).
  rewrite Hreg in Hplan.
  destruct (plan_app _ _ _ Hplan) as (ws1 & ws2 & _ & Hplan2 & ->).
  simpl in Hplan2.
  destruct (write_of inst) as [wr|] eqn:Hw; [|done].
  destruct (plan post) as [ws3|] eqn:Hpost; [|done]. simplify_eq.
  destruct (flush_instance_write inst ∅ _ Hw) as (_ & Hloc & Hdump).
  exists wr.2. split; [done|].
  rewrite Hfs, apply_writes_lookup, last_write_app. destruct wr as [p text].
  simpl in *. subst p.
  destruct (last_write (get_location inst) ws3) as [t|] eqn:Hlast.
  - destruct (plan_last_write _ _ _ _ Hpost Hlast) as (b & i & Hin & Hloc & _).
    by destruct (Hlater b i Hin).
  - by rewrite String.eqb_refl.
Qed.

Lemma flush_writes_own_document_witness :
  let w := mkWorld Demo.two_nodes ∅ ∅ [] [] in
  exists text,
    @json_dump Demo.E0 (@document Demo.E0 [("md5_hash", PStr "a"); ("size", PInt 1)])
    = Dumped text
    /\ files (@flush_all Demo.E0 w).1
         !! @get_location Demo.E0 [("md5_hash", PStr "a"); ("size", PInt 1)]
       = Some text.
Proof.
  intros w.
  apply (@flush_writes_own_document Demo.E0 w (@flush_all Demo.E0 w).1 [] "a"
           [("md5_hash", PStr "a"); ("size", PInt 1)]
           [("b", [("md5_hash", PStr "b"); ("size", PInt 2)])]).
  - vm_compute. reflexivity.
  - reflexivity.
  - intros b i Hin. apply list_elem_of_singleton in Hin as [= -> ->].
    vm_compute. discriminate.
Defined.

(** X17: a run of the add action, whatever its outcome, changes no file
    other than those at the locations of the nodes the registry holds when
    the lines have been read and the orphans linked: the rest of the catalog
    is not touched. *)
Theorem add_touches_only_node_files `{!Externals} catalog path dataset_id
    dataset_version force config file w p :
  open_text path = Some file ->
  (forall blob inst,
     (blob, inst) ∈ link_orphans catalog
                      (instances (add_lines catalog 0 file w).1) ->
     get_location inst <> p) ->
  files (_add_to_catalog catalog (Some path) dataset_id dataset_version force
           config w).1 !! p
  = files w !! p.
Proof.
  intros Hopen Hother. unfold _add_to_catalog. unfold bind at 1.
  unfold from_option at 1. rewrite Hopen. unfold ret at 1. unfold bind at 1.
  destruct (add_lines catalog 0 file w) as [u [e|[]]] eqn:Hlines;
    pose proof (add_lines_frame _ _ _ _ _ _ Hlines) as (Hf & _ & _);
    simpl in *; [by rewrite Hf|].
  unfold bind at 1. unfold modify at 1. unfold bind at 1. unfold flush_all.
  simpl.
  destruct (flush_items (link_orphans catalog (instances u)) (files u))
    as [[reg fs] r] eqn:Hflush.
  pose proof (flush_items_other _ _ _ _ _ p Hflush Hother) as Hp.
  destruct r as [e|[]]; simpl; rewrite Hp; by rewrite Hf.
Qed.

Lemma add_touches_only_node_files_witness :
  let w := set_files {[ "/cat/metadata/other.json" := "{}" ]} Demo.catalog_world in
  files (@_add_to_catalog Demo.E0 Demo.catalog (Some "two.jsonl") None None
           false None w).1 !! "/cat/metadata/other.json"
  = files w !! "/cat/metadata/other.json".
Proof.
  intros w.
  apply (@add_touches_only_node_files Demo.E0 Demo.catalog "two.jsonl" None
           None false None [Demo.dataset_line; Demo.file_line] w).
  - vm_compute. reflexivity.
  - intros blob inst Hin. vm_compute in Hin.
    apply elem_of_cons in Hin as [[= -> ->]|Hin]; [vm_compute; discriminate|].
    apply list_elem_of_singleton in Hin as [= -> ->]. vm_compute. discriminate.
Defined.

(** ** The validate action on other inputs *)

Section ValidateMore.
Context `{!Externals}.

Lemma get_line_count_world file w w' r :
  _get_line_count file w = (w', r) -> w' = w.
Proof.
  unfold _get_line_count. run_monad.
  destruct (open_text file) as [f|]; [|by intros [= <-]].
  destruct (last_index f); by intros [= <-].
Qed.

(** The progress events of a log. *)
Lemma validate_lines_valid cs r n file : forall i w,
  Forall (fun line =>
            exists v, json_loads (rstrip line) = Some v
                      /\ Draft202012Validator cs r v = None) file ->
  exists w',
    validate_lines cs r n i file w = (w', inr tt)
    /\ List.filter (fun ev => match ev with Progress _ _ => true | _ => false end)
         (log w')
       = List.filter (fun ev => match ev with Progress _ _ => true | _ => false end)
           (log w)
         ++ map (fun j => Progress j n) (seq (S i) (length file)).
Proof.
  induction file as [|line rest IH]; intros i w Hall; simpl.
  - exists w. by rewrite app_nil_r.
  - apply Forall_cons in Hall as [(v & Hv & Hok) Hall].
    destruct (IH (S i)
                (if is_dict v then add_log (Progress (S i) n) w
                 else add_log (Warning not_dict_msg)
                        (add_log (Progress (S i) n) w)) Hall)
      as (w' & Hrun & Hlog).
    exists w'. split.
    + unfold bind at 1. unfold validate_line. run_monad. simpl.
      rewrite Hv. simpl. rewrite Hok.
      destruct (is_dict v); simpl; exact Hrun.
    + rewrite Hlog.
      destruct (is_dict v); simpl; rewrite !List.filter_app; simpl;
        rewrite ?app_nil_r; by rewrite <- app_assoc.
Qed.
End ValidateMore.

(** X18: the validate action only reads.  Whatever its arguments and
    whatever its outcome, a call leaves the files, the registry and the
    catalog directories as they were, and it yields its one result record
    exactly when it returns. *)
Theorem validate_only_reads `{!Externals} dir metadata dataset_id
    dataset_version force config w :
  let run :=
    __call__ validate dir metadata dataset_id dataset_version force config w in
  files run.1 = files w /\ instances run.1 = instances w
  /\ catalogs run.1 = catalogs w
  /\ yielded run.1
     = yielded w ++ match run.2 with inr _ => [validated_status] | inl _ => [] end.
Proof.
  cbv zeta.
  destruct (__call__ validate dir metadata dataset_id dataset_version force
              config w) as [w' r] eqn:Hrun. simpl.
  unfold __call__, _validate_metadata in Hrun.
  destruct metadata as [path|];
    [|unfold raise in Hrun; injection Hrun as <- <-; by rewrite app_nil_r].
  unfold bind at 1 in Hrun.
  destruct (load_schemas schemas [] w) as [w0 [e|st]] eqn:Hload;
    pose proof (load_schemas_world _ _ _ _ _ Hload) as ->;
    [injection Hrun as <- <-; by rewrite app_nil_r|].
  unfold bind at 1 in Hrun. unfold from_option at 1 in Hrun.
  destruct (Store.get (PStr catalog_schema_id) st) as [cs|];
    [|unfold raise in Hrun; injection Hrun as <- <-; by rewrite app_nil_r].
  unfold ret at 1 in Hrun. unfold bind at 1 in Hrun.
  destruct (_get_line_count path w) as [w0 [e|n]] eqn:Hcount;
    pose proof (get_line_count_world _ _ _ _ Hcount) as ->;
    [injection Hrun as <- <-; by rewrite app_nil_r|].
  unfold bind at 1 in Hrun. unfold from_option at 1 in Hrun.
  destruct (open_text path) as [file|];
    [|unfold raise in Hrun; injection Hrun as <- <-; by rewrite app_nil_r].
  unfold ret at 1 in Hrun. unfold bind at 1 in Hrun.
  destruct (validate_lines cs (mkRefResolver cs st) n 0 file w)
    as [w1 [e|[]]] eqn:Hlines;
    apply validate_lines_frame in Hlines as (Hf & Hi & Hy & Hc).
  - injection Hrun as <- <-. rewrite app_nil_r. done.
  - unfold yield, modify in Hrun. injection Hrun as <- <-. simpl.
    rewrite Hy. done.
Qed.

(** X19: on a file that has lines, all of them JSON that the catalog
    schema accepts, the validate action returns, yields exactly its result
    record and has logged the progress of every line, in order, each with the
    total number of lines. *)
Theorem validate_accepts_valid_file `{!Externals} dir path dataset_id
    dataset_version force config w st cs file :
  (load_schemas schemas [] w).2 = inr st ->
  Store.get (PStr catalog_schema_id) st = Some cs ->
  open_text path = Some file ->
  file <> [] ->
  Forall (fun line =>
            exists v, json_loads (rstrip line) = Some v
                      /\ Draft202012Validator cs (mkRefResolver cs st) v = None)
    file ->
  exists w',
    __call__ validate dir (Some path) dataset_id dataset_version force config w
    = (w', inr tt)
    /\ yielded w' = yielded w ++ [validated_status]
    /\ List.filter (fun ev => match ev with Progress _ _ => true | _ => false end)
         (log w')
       = List.filter (fun ev => match ev with Progress _ _ => true | _ => false end)
           (log w)
         ++ map (fun j => Progress j (length file)) (seq 1 (length file)).
Proof.
  intros Hload Hcs Hopen Hne Hall.
  destruct (load_schemas schemas [] w) as [w0 r] eqn:Hrun. simpl in Hload.
  subst r. pose proof (load_schemas_world _ _ _ _ _ Hrun) as ->.
  destruct (validate_lines_valid cs (mkRefResolver cs st) (length file) file 0 w
              Hall) as (w1 & Hlines & Hlog).
  pose proof (validate_lines_frame _ _ _ _ _ _ _ _ Hlines) as (_ & _ & Hy & _).
  exists (add_yield validated_status w1). split_and!.
  - unfold __call__, _validate_metadata. unfold bind at 1. rewrite Hrun.
    unfold bind at 1. unfold from_option at 1. rewrite Hcs. unfold ret at 1.
    unfold bind at 1. rewrite (get_line_count_eq _ _ _ Hopen).
    destruct file as [|l0 f0]; [done|].
    unfold bind at 1. unfold from_option at 1. rewrite Hopen. unfold ret at 1.
    unfold bind at 1. rewrite Hlines. reflexivity.
  - simpl. by rewrite Hy.
  - exact Hlog.
Qed.

Lemma validate_accepts_valid_file_witness :
  exists w',
    @__call__ Demo.E0 validate None (Some "two.jsonl") None None false None
      Demo.empty_world
    = (w', inr tt)
    /\ yielded w' = yielded Demo.empty_world ++ [validated_status]
    /\ List.filter (fun ev => match ev with Progress _ _ => true | _ => false end)
         (log w')
       = List.filter (fun ev => match ev with Progress _ _ => true | _ => false end)
           (log Demo.empty_world)
         ++ map (fun j => Progress j (length [Demo.dataset_line; Demo.file_line]))
              (seq 1 (length [Demo.dataset_line; Demo.file_line])).
Proof.
  apply (@validate_accepts_valid_file Demo.E0 None "two.jsonl" None None false
           None Demo.empty_world
           (match (@load_schemas Demo.E0 schemas [] Demo.empty_world).2 with
            | inr st => st
            | inl _ => []
            end)
           (Demo.schema_doc "catalog") [Demo.dataset_line; Demo.file_line]).
  - vm_compute. reflexivity.
  - vm_compute. reflexivity.
  - vm_compute. reflexivity.
  - discriminate.
  - repeat constructor; eexists; split; vm_compute; reflexivity.
Defined.

(** X20: when none of the schema documents is stored under the catalog
    schema's identifier, the validate action raises the key error for that
    identifier before it opens the metadata file: the outcome is the same for
    every metadata path, and the world is left as it was. *)
Theorem validate_needs_catalog_schema `{!Externals} dir path dataset_id
    dataset_version force config w st :
  (load_schemas schemas [] w).2 = inr st ->
  Store.get (PStr catalog_schema_id) st = None ->
  __call__ validate dir (Some path) dataset_id dataset_version force config w
  = (w, inl (KeyError (PStr "https://datalad.org/catalog.schema.json"))).
Proof.
  intros Hload Hcs.
  destruct (load_schemas schemas [] w) as [w0 r] eqn:Hrun. simpl in Hload.
  subst r. pose proof (load_schemas_world _ _ _ _ _ Hrun) as ->.
  unfold __call__, _validate_metadata. unfold bind at 1. rewrite Hrun.
  unfold bind at 1. unfold from_option at 1. by rewrite Hcs.
Qed.

Lemma validate_needs_catalog_schema_witness :
  @__call__ DemoMore.E_no_catalog_schema validate None (Some "no such file")
    None None false None Demo.empty_world
  = (Demo.empty_world,
     inl (KeyError (PStr "https://datalad.org/catalog.schema.json"))).
Proof.
  apply (@validate_needs_catalog_schema DemoMore.E_no_catalog_schema None
           "no such file" None None false None Demo.empty_world
           (match (@load_schemas DemoMore.E_no_catalog_schema schemas []
                     Demo.empty_world).2 with
            | inr st => st
            | inl _ => []
            end));
    vm_compute; reflexivity.
Defined.

(** X21: a line that is not JSON ends the validate action with the
    decode error of [json.loads]: the progress of that line has been logged,
    nothing else has happened for it, and nothing is yielded. *)
Theorem validate_aborts_at_broken_line `{!Externals} dir path dataset_id
    dataset_version force config w st cs pre line post w1 :
  (load_schemas schemas [] w).2 = inr st ->
  Store.get (PStr catalog_schema_id) st = Some cs ->
  open_text path = Some (pre ++ line :: post) ->
  validate_lines cs (mkRefResolver cs st) (length (pre ++ line :: post)) 0 pre w
  = (w1, inr tt) ->
  json_loads (rstrip line) = None ->
  __call__ validate dir (Some path) dataset_id dataset_version force config w
  = (add_log (Progress (S (length pre)) (length (pre ++ line :: post))) w1,
     inl JSONDecodeError)
  /\ yielded w1 = yielded w.
Proof.
  intros Hload Hcs Hopen Hpre Hline.
  destruct (load_schemas schemas [] w) as [w0 r] eqn:Hrun. simpl in Hload.
  subst r. pose proof (load_schemas_world _ _ _ _ _ Hrun) as ->. split.
  - unfold __call__, _validate_metadata. unfold bind at 1. rewrite Hrun.
    unfold bind at 1. unfold from_option at 1. rewrite Hcs. unfold ret at 1.
    assert (_get_line_count path w = (w, inr (length (pre ++ line :: post))))
      as Hcount.
    { rewrite (get_line_count_eq _ _ _ Hopen). by destruct pre. }
    unfold bind at 1. rewrite Hcount.
    unfold bind at 1. unfold from_option at 1. rewrite Hopen. unfold ret at 1.
    unfold bind at 1. rewrite validate_lines_app, Hpre. simpl.
    unfold bind at 1. unfold validate_line. run_monad. simpl.
    by rewrite Hline.
  - by apply validate_lines_frame in Hpre as (_ & _ & ? & _).
Qed.

Lemma validate_aborts_at_broken_line_witness :
  let w1 := add_log (Progress 1 3) Demo.empty_world in
  @__call__ DemoMore.E1 validate None (Some "broken2.jsonl") None None false
    None Demo.empty_world
  = (add_log (Progress 2 3) w1, inl JSONDecodeError)
  /\ yielded w1 = yielded Demo.empty_world.
Proof.
  intros w1.
  apply (@validate_aborts_at_broken_line DemoMore.E1 None "broken2.jsonl" None
           None false None Demo.empty_world
           (match (@load_schemas DemoMore.E1 schemas [] Demo.empty_world).2 with
            | inr st => st
            | inl _ => []
            end)
           (Demo.schema_doc "catalog") [Demo.dataset_line]
           DemoMore.broken_line [Demo.file_line] w1);
    vm_compute; reflexivity.
Defined.
